(** * usb_mapper.c: enumeration of USB hubs and their connected ports

    A shallow embedding of [src/usb_mapper.c] and the properties of its three
    exported entry points, [EnumerateUSBDevices], [GetDeviceInfo] and
    [GetDeviceCount].

    The program talks to the operating system through SetupAPI and
    DeviceIoControl.  One traversal pass issues each of those calls once per
    item, so a pass is modelled against the replies the platform gives
    during that pass: a [Platform] value holds, per listed hub interface and
    per port, what each call answers.  The two file-scope variables
    [g_devices] and [g_deviceCount] are threaded explicitly as [Globals].

    Standing assumptions on the platform: the list of hub interfaces is
    finite and shorter than [2^32] (the [DWORD] member index reaches its
    end), and a failed registry read leaves the caller's buffer as it was.

    The file has two layers.  [hub_body], [hub_loop] and
    [EnumerateUSBDevices] give what a pass does to the globals and what it
    returns, when it returns.  [EnumerateUSBDevices_run] is the pass with
    lines 126-132 in full, where the unchecked result of [malloc] and the
    unchecked sizing call can end it; [run_returns] relates the two. *)

From Stdlib Require Import ZArith String Ascii Strings.Byte DecimalString Lia.
From stdpp Require Import base list list_numbers sorting strings.

Local Open Scope Z_scope.

(** ** Constants and the record type of the source *)

Definition MAX_DEVICES : Z := 256.
Definition MAX_PATH_LEN : Z := 512.
Definition MAX_DESC_LEN : Z := 256.

(** [USBDeviceInfo]; the two [char] arrays hold C strings and are modelled
    by their contents up to the terminating NUL. *)
Record USBDeviceInfo := mkUSBDeviceInfo {
  hubIndex : Z;
  portNumber : Z;
  deviceDesc : string;
  devicePath : string;
  isHub : Z;
  speed : Z;
  vendorId : Z;
  productId : Z
}.

(** The all-zero record that [memset (g_devices, 0, ...)] leaves in a slot. *)
Definition zeroed : USBDeviceInfo :=
  {| hubIndex := 0; portNumber := 0; deviceDesc := ""; devicePath := "";
     isHub := 0; speed := 0; vendorId := 0; productId := 0 |}.

(** [static USBDeviceInfo g_devices[MAX_DEVICES]; static int g_deviceCount]. *)
Record Globals := mkGlobals {
  g_devices : list USBDeviceInfo;
  g_deviceCount : Z
}.

(** State of the two globals when the library is loaded. *)
Definition initial : Globals :=
  {| g_devices := replicate (Z.to_nat MAX_DEVICES) zeroed; g_deviceCount := 0 |}.

(** ** Integer conversions of the source *)

(** [hubIndex] is a [DWORD]: [hubIndex++] wraps at [2^32]. *)
Definition DWORD_incr (x : Z) : Z := (x + 1) mod 2 ^ 32.

(** [dev->hubIndex = hubIndex] stores a [DWORD] into an [int]. *)
Definition int_of_DWORD (x : Z) : Z := if x <? 2 ^ 31 then x else x - 2 ^ 32.

(** A [UCHAR] field promoted to [int]. *)
Definition int_of_UCHAR (b : byte) : Z := Z.of_N (Byte.to_N b).

(** ** C library calls *)

(** [%d] of [printf]. *)
Definition decimal (n : Z) : string := NilZero.string_of_int (Z.to_int n).

(** [snprintf (dst, size, ...)] keeps at most [size - 1] characters of the
    formatted text. *)
Definition snprintf (size : Z) (formatted : string) : string :=
  substring 0 (Z.to_nat (size - 1)) formatted.

(** [strncpy (dst, src, n)] into a destination that is all zero: at most
    [n] characters of [src] arrive, the rest of [dst] stays NUL. *)
Definition strncpy (src : string) (n : Z) : string :=
  substring 0 (Z.to_nat n) src.

(** ** Declarations of usbioctl.h / usbspec.h

    The header is not part of the repository.  The enumeration constants
    that the source names are taken as parameters. *)
Record usbioctl_h := {
  UsbLowSpeed : Z;
  UsbFullSpeed : Z;
  UsbHighSpeed : Z;
  UsbSuperSpeed : Z;
  DeviceConnected : Z
}.

(** The values the Windows SDK gives them, used for the worked scenarios. *)
Definition winsdk : usbioctl_h :=
  {| UsbLowSpeed := 0; UsbFullSpeed := 1; UsbHighSpeed := 2;
     UsbSuperSpeed := 3; DeviceConnected := 1 |}.

(** The case labels of a C [switch] are pairwise distinct. *)
Definition distinct_speeds (K : usbioctl_h) : Prop :=
  NoDup [UsbLowSpeed K; UsbFullSpeed K; UsbHighSpeed K; UsbSuperSpeed K].

Record USB_DEVICE_DESCRIPTOR := {
  idVendor : Z;
  idProduct : Z
}.

(** The fields of [USB_NODE_CONNECTION_INFORMATION_EX] the source reads. *)
Record USB_NODE_CONNECTION_INFORMATION_EX := {
  DeviceDescriptor : USB_DEVICE_DESCRIPTOR;
  Speed : byte;
  DeviceIsHub : byte;
  ConnectionStatus : Z
}.

(** ** The platform during one pass *)

(** What the platform answers for one listed hub interface.
    - [InterfaceDetail]: the sized call of SetupDiGetDeviceInterfaceDetailA;
      [Some path] is success with that [DevicePath].
    - [CreateFileA]: whether opening the path gives a valid handle.
    - [NodeInformation]: IOCTL_USB_GET_NODE_INFORMATION; [Some n] is success
      with [bNumberOfPorts = n] (a [UCHAR]).
    - [ConnectionInformation p]: IOCTL_USB_GET_NODE_CONNECTION_INFORMATION_EX
      with [ConnectionIndex = p].
    - [DeviceDescProperty p]: SetupDiGetDeviceRegistryPropertyA for
      SPDRP_DEVICEDESC, as issued while port [p] is recorded; [Some s] is
      success with the NUL-terminated text [s] in the buffer, [None] is
      failure, which leaves the caller's buffer as it was. *)
Record HubInterface := {
  InterfaceDetail : option string;
  CreateFileA : bool;
  NodeInformation : option byte;
  ConnectionInformation : Z -> option USB_NODE_CONNECTION_INFORMATION_EX;
  DeviceDescProperty : Z -> option string
}.

(** [SetupDiGetClassDevs]: [None] is INVALID_HANDLE_VALUE; [Some l] is a
    device information set whose hub interfaces are [l] in listing order,
    so that SetupDiEnumDeviceInterfaces answers TRUE at member index [i]
    exactly when [i] is below the length of [l]. *)
Record Platform := {
  SetupDiGetClassDevs : option (list HubInterface)
}.

(** ** The helper functions of the source *)

(** [GetDeviceProperty]: the return value and the buffer afterwards. *)
Definition GetDeviceProperty (reply : option string) (buffer : string)
  : bool * string :=
  match reply with
  | Some s => (true, s)
  | None => (false, buffer)
  end.

(** [OpenDeviceHandle]: [true] for a handle other than INVALID_HANDLE_VALUE;
    the reply of [CreateFileA] is the one for the path of this hub. *)
Definition OpenDeviceHandle (hub : HubInterface) (path : string) : bool :=
  CreateFileA hub.

Definition GetHubNodeInfo (hub : HubInterface) : option byte :=
  NodeInformation hub.

Definition GetPortConnectorProperties (hub : HubInterface) (portIndex : Z)
  : option USB_NODE_CONNECTION_INFORMATION_EX :=
  ConnectionInformation hub portIndex.

Section UsbMapper.

Variable K : usbioctl_h.

(** The [switch (connInfo.Speed)] of lines 168-174. *)
Definition map_speed (s : Z) : Z :=
  if s =? UsbLowSpeed K then 0
  else if s =? UsbFullSpeed K then 1
  else if s =? UsbHighSpeed K then 2
  else if s =? UsbSuperSpeed K then 3
  else -1.

(** The fields written through [dev], lines 161-184.  [hubIdx] is the
    value of [hubIndex] after its conversion to [int]; [hubDesc] is the
    local buffer after the call of [GetDeviceProperty].  The slot written
    to is all zero since the [memset] of this pass. *)
Definition device_record (path : string) (hubIdx : Z) (port : Z)
    (connInfo : USB_NODE_CONNECTION_INFORMATION_EX) (hubDesc : string)
  : USBDeviceInfo :=
  {| hubIndex := hubIdx;
     portNumber := port;
     isHub := if int_of_UCHAR (DeviceIsHub connInfo) =? 0 then 0 else 1;
     vendorId := idVendor (DeviceDescriptor connInfo);
     productId := idProduct (DeviceDescriptor connInfo);
     speed := map_speed (int_of_UCHAR (Speed connInfo));
     deviceDesc :=
       snprintf MAX_DESC_LEN
         ("Hub: " +:+ hubDesc +:+ ", Port: " +:+ decimal port);
     devicePath := strncpy path (MAX_PATH_LEN - 1) |}.

(** Body of the [for] loop over ports, lines 153-189. *)
Definition port_body (hub : HubInterface) (path : string) (hubIdx : Z)
    (st : Globals) (port : Z) : Globals :=
  match GetPortConnectorProperties hub port with
  | Some connInfo =>
      if ConnectionStatus connInfo =? DeviceConnected K then
        if g_deviceCount st <? MAX_DEVICES then
          let hubDesc :=
            snd (GetDeviceProperty (DeviceDescProperty hub port) "") in
          let dev :=
            device_record path (int_of_DWORD hubIdx) port connInfo hubDesc in
          {| g_devices := <[Z.to_nat (g_deviceCount st) := dev]> (g_devices st);
             g_deviceCount := g_deviceCount st + 1 |}
        else st
      else st
  | None => st
  end.

(** The values [port] takes in [for (port = 1; port <= numPorts; port++)]. *)
Definition port_range (numPorts : Z) : list Z := seqZ 1 numPorts.

(** Body of the [while] loop over hub interfaces, as far as the globals go:
    lines 134-195, entered once lines 126-132 have obtained the block for
    the interface detail.  Lines 126-132 do not touch the globals; what
    else they can do is in [hub_alloc_io] and [hub_loop_run] below. *)
Definition hub_body (hubIdx : Z) (hub : HubInterface) (st : Globals) : Globals :=
  match InterfaceDetail hub with
  | Some path =>
      if OpenDeviceHandle hub path then
        match GetHubNodeInfo hub with
        | Some bNumberOfPorts =>
            let numPorts := int_of_UCHAR bNumberOfPorts in
            fold_left (port_body hub path hubIdx) (port_range numPorts) st
        | None => st
        end
      else st
  | None => st
  end.

(** [SetupDiEnumDeviceInterfaces (set, ..., MemberIndex, ...)]: the member
    at that index, or FALSE past the end of the set. *)
Definition SetupDiEnumDeviceInterfaces (set : list HubInterface)
    (MemberIndex : Z) : option HubInterface :=
  set !! Z.to_nat MemberIndex.

(** The [while] loop of lines 122-199 as written, with a bound on the
    number of iterations; [None] when the bound is reached. *)
Fixpoint hub_while (fuel : nat) (set : list HubInterface) (hubIdx : Z)
    (st : Globals) : option Globals :=
  match fuel with
  | O => None
  | S fuel' =>
      match SetupDiEnumDeviceInterfaces set hubIdx with
      | Some hub =>
          hub_while fuel' set (DWORD_incr hubIdx) (hub_body hubIdx hub st)
      | None => Some st
      end
  end.

(** The same loop unrolled along the set: [listing] is what remains to be
    listed from member index [hubIdx] on.  [hub_while_unrolled] below shows
    that this is what the loop computes. *)
Fixpoint hub_loop (listing : list HubInterface) (hubIdx : Z) (st : Globals)
  : Globals :=
  match listing with
  | [] => st
  | hub :: rest => hub_loop rest (DWORD_incr hubIdx) (hub_body hubIdx hub st)
  end.

(** [EnumerateUSBDevices]: the returned [int] and the globals afterwards.
    [st0] is the state after the reset of lines 104-105, which overwrites
    whatever the globals held. *)
Definition EnumerateUSBDevices (w : Platform) (st : Globals) : Z * Globals :=
  let st0 := {| g_devices := replicate (Z.to_nat MAX_DEVICES) zeroed;
                g_deviceCount := 0 |} in
  match SetupDiGetClassDevs w with
  | None => (-1, st0)
  | Some listing =>
      let st1 := hub_loop listing 0 st0 in
      (g_deviceCount st1, st1)
  end.

(** [outInfo == NULL]. *)
Definition is_NULL (outInfo : option USBDeviceInfo) : bool :=
  match outInfo with
  | None => true
  | Some _ => false
  end.

(** [GetDeviceInfo (index, outInfo)].  [outInfo] is [None] for a null
    pointer and [Some buf] for a pointer to a buffer holding [buf].  The
    result is the returned [int], the buffer afterwards and the globals
    afterwards; [None] stands for a read outside [g_devices]. *)
Definition GetDeviceInfo (index : Z) (outInfo : option USBDeviceInfo)
    (st : Globals) : option (Z * option USBDeviceInfo * Globals) :=
  if (index <? 0) || (index >=? g_deviceCount st) || is_NULL outInfo
  then Some (0, outInfo, st)
  else
    match g_devices st !! Z.to_nat index with
    | Some r => Some (1, Some r, st)
    | None => None
    end.

(** [GetDeviceCount ()]. *)
Definition GetDeviceCount (st : Globals) : Z := g_deviceCount st.

(** ** The Result Store as the caller sees it *)

(** The records a caller can retrieve: slots [0 .. g_deviceCount - 1]. *)
Definition emitted (st : Globals) : list USBDeviceInfo :=
  take (Z.to_nat (g_deviceCount st)) (g_devices st).

(** What holds of the globals between calls: the array has its declared
    size and the count stays within it. *)
Definition store_ok (st : Globals) : Prop :=
  0 <= g_deviceCount st <= MAX_DEVICES /\
  length (g_devices st) = Z.to_nat MAX_DEVICES.

(** The capacity as a list length. *)
Definition cap : nat := Z.to_nat MAX_DEVICES.

(** ** The traversal as section 4.3 of the specification words it

    These definitions follow the specification, step by step, and are
    compared with the loops above.  A hub contributes the records of its
    connected ports, in port order, if its path resolves, it opens and its
    node information is read; otherwise it contributes nothing.  The hub at
    listing position [pos] gets [hubIndex = pos].  [skip] names a port left
    out of a hub's scan, to compare a pass with one in which that port does
    not exist. *)

Definition spec_port_records (hub : HubInterface) (path : string)
    (hubIdx : Z) (port : Z) : list USBDeviceInfo :=
  match ConnectionInformation hub port with
  | Some connInfo =>
      if ConnectionStatus connInfo =? DeviceConnected K then
        [device_record path hubIdx port connInfo
           (default "" (DeviceDescProperty hub port))]
      else []
  | None => []
  end.

Definition spec_hub_records (skip : option Z) (hubIdx : Z)
    (hub : HubInterface) : list USBDeviceInfo :=
  match InterfaceDetail hub, CreateFileA hub, NodeInformation hub with
  | Some path, true, Some portCount =>
      flat_map (spec_port_records hub path hubIdx)
        (filter (fun port => Some port <> skip)
           (port_range (int_of_UCHAR portCount)))
  | _, _, _ => []
  end.

Definition skip_at (skip : option (nat * Z)) (pos : nat) : option Z :=
  match skip with
  | Some (h, p) => if decide (h = pos) then Some p else None
  | None => None
  end.

Fixpoint spec_records_from (skip : option (nat * Z)) (pos : nat)
    (listing : list HubInterface) : list USBDeviceInfo :=
  match listing with
  | [] => []
  | hub :: rest =>
      spec_hub_records (skip_at skip pos) (Z.of_nat pos) hub
        ++ spec_records_from skip (S pos) rest
  end.

(** The hubs a pass gets to see: none when the listing cannot start. *)
Definition listed_hubs (w : Platform) : list HubInterface :=
  default [] (SetupDiGetClassDevs w).

(** All records of a pass, before the capacity limit applies. *)
Definition spec_pass_records (listing : list HubInterface)
  : list USBDeviceInfo :=
  spec_records_from None 0 listing.

(** The same with port [p] of the hub at position [h] left out. *)
Definition spec_pass_records_without (h : nat) (p : Z)
    (listing : list HubInterface) : list USBDeviceInfo :=
  spec_records_from (Some (h, p)) 0 listing.

(** A hub that fails before its ports are scanned. *)
Definition hub_fails (hub : HubInterface) : Prop :=
  InterfaceDetail hub = None \/ CreateFileA hub = false \/
  NodeInformation hub = None.

(** A port whose query fails or reports a status other than connected. *)
Definition port_silent (hub : HubInterface) (port : Z) : Prop :=
  match ConnectionInformation hub port with
  | Some connInfo => ConnectionStatus connInfo <> DeviceConnected K
  | None => True
  end.

(** The records the loops append, with the hub index as the code computes
    it ([DWORD] counter, converted to [int]). *)
Fixpoint loop_records (listing : list HubInterface) (hubIdx : Z)
  : list USBDeviceInfo :=
  match listing with
  | [] => []
  | hub :: rest =>
      spec_hub_records None (int_of_DWORD hubIdx) hub
        ++ loop_records rest (DWORD_incr hubIdx)
  end.

(** ** Platforms for the scenarios of section 8 of the specification *)

Definition device (vid pid : Z) (spd : byte)
  : USB_NODE_CONNECTION_INFORMATION_EX :=
  {| DeviceDescriptor := {| idVendor := vid; idProduct := pid |};
     Speed := spd; DeviceIsHub := x00; ConnectionStatus := 1 |}.

Definition no_device : USB_NODE_CONNECTION_INFORMATION_EX :=
  {| DeviceDescriptor := {| idVendor := 0; idProduct := 0 |};
     Speed := x00; DeviceIsHub := x00; ConnectionStatus := 0 |}.

(** Scenario B: four ports, ports 1 and 3 connected. *)
Definition hub_B : HubInterface :=
  {| InterfaceDetail := Some "hub#b";
     CreateFileA := true;
     NodeInformation := Some x04;
     ConnectionInformation := fun p =>
       if p =? 1 then Some (device 0x1234 0x5678 x02)
       else if p =? 3 then Some (device 0xAAAA 0xBBBB x01)
       else Some no_device;
     DeviceDescProperty := fun _ => Some "USB Root Hub" |}.

(** A hub that cannot be opened. *)
Definition hub_closed : HubInterface :=
  {| InterfaceDetail := Some "hub#closed";
     CreateFileA := false;
     NodeInformation := Some x04;
     ConnectionInformation := fun _ => Some (device 1 1 x02);
     DeviceDescProperty := fun _ => Some "Generic USB Hub" |}.

(** Two ports: the query of port 1 fails, port 2 holds a device of an
    unlisted speed class, and the description of the hub cannot be read. *)
Definition hub_nameless : HubInterface :=
  {| InterfaceDetail := Some "hub#n";
     CreateFileA := true;
     NodeInformation := Some x02;
     ConnectionInformation := fun p =>
       if p =? 2 then Some (device 0x0951 0x1666 x07) else None;
     DeviceDescProperty := fun _ => None |}.

(** 255 ports, every one connected. *)
Definition hub_full : HubInterface :=
  {| InterfaceDetail := Some "hub#full";
     CreateFileA := true;
     NodeInformation := Some xff;
     ConnectionInformation := fun p => Some (device 0x8087 p x03);
     DeviceDescProperty := fun _ => Some "Hub" |}.

Definition platform_A : Platform := {| SetupDiGetClassDevs := Some [] |}.
Definition platform_B : Platform := {| SetupDiGetClassDevs := Some [hub_B] |}.
Definition platform_C : Platform :=
  {| SetupDiGetClassDevs := Some [hub_B; hub_closed; hub_nameless] |}.
Definition platform_D : Platform :=
  {| SetupDiGetClassDevs := Some [hub_full; hub_full] |}.
Definition platform_down : Platform := {| SetupDiGetClassDevs := None |}.

(** ** Further notions used to describe a pass *)

(** Listing order of records: by hub, then by port. *)
Definition record_before (r1 r2 : USBDeviceInfo) : Prop :=
  hubIndex r1 < hubIndex r2 \/
  (hubIndex r1 = hubIndex r2 /\ portNumber r1 < portNumber r2).

(** The slots from [g_deviceCount] on are as the [memset] left them. *)
Definition unused_slots_zeroed (st : Globals) : Prop :=
  forall i : nat,
    (Z.to_nat (g_deviceCount st) <= i < cap)%nat ->
    g_devices st !! i = Some zeroed.

(** ** The calls a pass makes to the platform

    The loops of [EnumerateUSBDevices] once more, this time also recording
    every call to SetupAPI, to the C heap and on the hub's handle, in the
    order in which the source makes them.  A hub is named by the value of
    [hubIndex] while it is processed. *)

Inductive OsCall :=
| Call_SetupDiGetClassDevs (valid : bool)
| Call_SetupDiEnumDeviceInterfaces (MemberIndex : Z) (found : bool)
| Call_InterfaceDetailSize (hubIdx : Z)
| Call_malloc (hubIdx : Z) (block : bool)
| Call_InterfaceDetail (hubIdx : Z) (ok : bool)
| Call_CreateFileA (hubIdx : Z) (valid : bool)
| Call_NodeInformation (hubIdx : Z) (ok : bool)
| Call_ConnectionInformation (hubIdx : Z) (port : Z) (ok : bool)
| Call_DeviceRegistryProperty (hubIdx : Z) (port : Z) (ok : bool)
| Call_CloseHandle (hubIdx : Z)
| Call_free (hubIdx : Z)
| Call_SetupDiDestroyDeviceInfoList.

(** Whether a call that fills a buffer succeeded. *)
Definition answered {A} (reply : option A) : bool :=
  match reply with
  | Some _ => true
  | None => false
  end.

(** Lines 153-189 with the calls of [GetPortConnectorProperties] and
    [GetDeviceProperty] recorded. *)
Definition port_body_io (hub : HubInterface) (path : string) (hubIdx : Z)
    (s : Globals * list OsCall) (port : Z) : Globals * list OsCall :=
  let st := fst s in
  let reply := GetPortConnectorProperties hub port in
  let log := snd s ++ [Call_ConnectionInformation hubIdx port (answered reply)] in
  match reply with
  | Some connInfo =>
      if ConnectionStatus connInfo =? DeviceConnected K then
        if g_deviceCount st <? MAX_DEVICES then
          let prop := GetDeviceProperty (DeviceDescProperty hub port) "" in
          let log :=
            log ++ [Call_DeviceRegistryProperty hubIdx port (fst prop)] in
          let dev :=
            device_record path (int_of_DWORD hubIdx) port connInfo (snd prop) in
          ({| g_devices := <[Z.to_nat (g_deviceCount st) := dev]> (g_devices st);
              g_deviceCount := g_deviceCount st + 1 |}, log)
        else (st, log)
      else (st, log)
  | None => (st, log)
  end.

(** Lines 134-197 with their calls recorded: the sized call of
    SetupDiGetDeviceInterfaceDetailA, [CreateFileA], the node-information
    request, the port loop, [CloseHandle] and [free]. *)
Definition hub_rest_io (hubIdx : Z) (hub : HubInterface)
    (s : Globals * list OsCall) : Globals * list OsCall :=
  let st := fst s in
  let log :=
    snd s ++ [Call_InterfaceDetail hubIdx (answered (InterfaceDetail hub))] in
  let s1 :=
    match InterfaceDetail hub with
    | Some path =>
        let log := log ++ [Call_CreateFileA hubIdx (OpenDeviceHandle hub path)] in
        if OpenDeviceHandle hub path then
          let log :=
            log ++ [Call_NodeInformation hubIdx (answered (GetHubNodeInfo hub))] in
          let s2 :=
            match GetHubNodeInfo hub with
            | Some bNumberOfPorts =>
                let numPorts := int_of_UCHAR bNumberOfPorts in
                fold_left (port_body_io hub path hubIdx) (port_range numPorts)
                  (st, log)
            | None => (st, log)
            end in
          (fst s2, snd s2 ++ [Call_CloseHandle hubIdx])
        else (st, log)
    | None => (st, log)
    end in
  (fst s1, snd s1 ++ [Call_free hubIdx]).

(** Lines 126-197 when [malloc] returns a block: the sizing call and
    [malloc], then the rest of the body. *)
Definition hub_body_io (hubIdx : Z) (hub : HubInterface)
    (s : Globals * list OsCall) : Globals * list OsCall :=
  hub_rest_io hubIdx hub
    (fst s, snd s ++ [Call_InterfaceDetailSize hubIdx;
                      Call_malloc hubIdx true]).

(** Lines 122-199 with the calls of SetupDiEnumDeviceInterfaces recorded,
    the last of which finds no further member; every [malloc] returns a
    block. *)
Fixpoint hub_loop_io (listing : list HubInterface) (hubIdx : Z)
    (s : Globals * list OsCall) : Globals * list OsCall :=
  match listing with
  | [] => (fst s, snd s ++ [Call_SetupDiEnumDeviceInterfaces hubIdx false])
  | hub :: rest =>
      hub_loop_io rest (DWORD_incr hubIdx)
        (hub_body_io hubIdx hub
           (fst s, snd s ++ [Call_SetupDiEnumDeviceInterfaces hubIdx true]))
  end.

(** [EnumerateUSBDevices] with its calls, for a pass in which every
    [malloc] returns a block: the returned [int], the globals afterwards
    and the calls made, oldest first. *)
Definition EnumerateUSBDevices_io (w : Platform) (st : Globals)
  : Z * Globals * list OsCall :=
  let st0 := {| g_devices := replicate (Z.to_nat MAX_DEVICES) zeroed;
                g_deviceCount := 0 |} in
  match SetupDiGetClassDevs w with
  | None => (-1, st0, [Call_SetupDiGetClassDevs false])
  | Some listing =>
      let s1 := hub_loop_io listing 0 (st0, [Call_SetupDiGetClassDevs true]) in
      (g_deviceCount (fst s1), fst s1,
       snd s1 ++ [Call_SetupDiDestroyDeviceInfoList])
  end.

(** What the process holds while a pass runs: a device information set,
    the heap block of the interface detail, the handle of the open hub. *)
Record Resources := {
  infoSet : bool;
  heapBlock : option Z;
  hubHandle : option Z
}.

Definition nothing_held : Resources :=
  {| infoSet := false; heapBlock := None; hubHandle := None |}.

(** The effect of one call on what is held; [None] when the call misuses a
    resource: a request on a handle that is not open, a second
    [CloseHandle] or [free], an allocation or an open that would lose the
    block or handle still held, a SetupAPI call without a set or into a
    block that is not there.  A [malloc] that returns NULL leaves no block
    held. *)
Definition os_step (r : Resources) (c : OsCall) : option Resources :=
  match c with
  | Call_SetupDiGetClassDevs valid =>
      if infoSet r then None
      else Some {| infoSet := valid; heapBlock := heapBlock r;
                   hubHandle := hubHandle r |}
  | Call_SetupDiEnumDeviceInterfaces _ _
  | Call_InterfaceDetailSize _
  | Call_DeviceRegistryProperty _ _ _ =>
      if infoSet r then Some r else None
  | Call_malloc h block =>
      match heapBlock r with
      | None => Some {| infoSet := infoSet r;
                        heapBlock := if block then Some h else None;
                        hubHandle := hubHandle r |}
      | Some _ => None
      end
  | Call_InterfaceDetail h _ =>
      if infoSet r && bool_decide (heapBlock r = Some h) then Some r else None
  | Call_CreateFileA h valid =>
      match hubHandle r with
      | None => Some {| infoSet := infoSet r; heapBlock := heapBlock r;
                        hubHandle := if valid then Some h else None |}
      | Some _ => None
      end
  | Call_NodeInformation h _
  | Call_ConnectionInformation h _ _ =>
      if bool_decide (hubHandle r = Some h) then Some r else None
  | Call_CloseHandle h =>
      if bool_decide (hubHandle r = Some h)
      then Some {| infoSet := infoSet r; heapBlock := heapBlock r;
                   hubHandle := None |}
      else None
  | Call_free h =>
      if bool_decide (heapBlock r = Some h)
      then Some {| infoSet := infoSet r; heapBlock := None;
                   hubHandle := hubHandle r |}
      else None
  | Call_SetupDiDestroyDeviceInfoList =>
      if infoSet r
      then Some {| infoSet := false; heapBlock := heapBlock r;
                   hubHandle := hubHandle r |}
      else None
  end.

Fixpoint os_run (log : list OsCall) (r : Resources) : option Resources :=
  match log with
  | [] => Some r
  | c :: rest =>
      match os_step r c with
      | Some r' => os_run rest r'
      | None => None
      end
  end.

(** ** The allocation of the interface detail, lines 126-132

    The loops above take up the body of the hub loop at line 134.  Lines
    126-132 come first and can end the pass: the result of the sizing call
    of SetupDiGetDeviceInterfaceDetailA is not looked at, [requiredSize]
    goes to [malloc] as it is, and [cbSize] is written through the pointer
    that [malloc] returns, with no test for NULL. *)

(** What the platform answers at lines 127-131 while one hub is processed.
    - [SizingCall]: [Some n] when the call stores [n] into [requiredSize],
      [None] when it fails without storing anything.
    - [MallocBlock]: whether [malloc] returns a block rather than NULL. *)
Record HubHeap := {
  SizingCall : option Z;
  MallocBlock : bool
}.

(** The ways in which lines 127-132 leave defined behaviour: the local
    [requiredSize] read before anything was stored in it, [cbSize] written
    through NULL, [cbSize] written into a block shorter than the field. *)
Inductive Fault :=
| UninitialisedSize
| NullWrite
| WriteOutsideBlock.

(** [cbSize] is a [DWORD]. *)
Definition sizeof_cbSize : Z := 4.

(** Lines 127-132.  [requiredSize] is [None] while nothing has been stored
    in the local.  The result is the fault, or [requiredSize] as it is
    when line 134 is reached; the calls made are added to [log]. *)
Definition hub_alloc_io (heap : HubHeap) (hubIdx : Z)
    (requiredSize : option Z) (log : list OsCall)
  : (Fault + option Z) * list OsCall :=
  let log := log ++ [Call_InterfaceDetailSize hubIdx] in
  let requiredSize :=
    match SizingCall heap with
    | Some n => Some n
    | None => requiredSize
    end in
  match requiredSize with
  | None => (inl UninitialisedSize, log)
  | Some n =>
      let log := log ++ [Call_malloc hubIdx (MallocBlock heap)] in
      if MallocBlock heap then
        if n <? sizeof_cbSize then (inl WriteOutsideBlock, log)
        else (inr requiredSize, log)
      else (inl NullWrite, log)
  end.

(** The [while] loop of lines 122-199 in full.  [heap i] holds the replies
    of lines 127-131 while the hub with member index [i] is processed.
    The result is the fault that ended the loop or the globals after it,
    and the calls made. *)
Fixpoint hub_loop_run (heap : Z -> HubHeap) (listing : list HubInterface)
    (hubIdx : Z) (requiredSize : option Z) (s : Globals * list OsCall)
  : (Fault + Globals) * list OsCall :=
  match listing with
  | [] =>
      (inr (fst s), snd s ++ [Call_SetupDiEnumDeviceInterfaces hubIdx false])
  | hub :: rest =>
      let log := snd s ++ [Call_SetupDiEnumDeviceInterfaces hubIdx true] in
      let a := hub_alloc_io (heap hubIdx) hubIdx requiredSize log in
      match fst a with
      | inl fault => (inl fault, snd a)
      | inr requiredSize' =>
          hub_loop_run heap rest (DWORD_incr hubIdx) requiredSize'
            (hub_rest_io hubIdx hub (fst s, snd a))
      end
  end.

(** [EnumerateUSBDevices] in full: the fault that ended the pass, or the
    returned [int] with the globals afterwards; and the calls made. *)
Definition EnumerateUSBDevices_run (w : Platform) (heap : Z -> HubHeap)
    (st : Globals) : (Fault + Z * Globals) * list OsCall :=
  let st0 := {| g_devices := replicate (Z.to_nat MAX_DEVICES) zeroed;
                g_deviceCount := 0 |} in
  match SetupDiGetClassDevs w with
  | None => (inr (-1, st0), [Call_SetupDiGetClassDevs false])
  | Some listing =>
      let r := hub_loop_run heap listing 0 None
                 (st0, [Call_SetupDiGetClassDevs true]) in
      match fst r with
      | inl fault => (inl fault, snd r)
      | inr st1 =>
          (inr (g_deviceCount st1, st1),
           snd r ++ [Call_SetupDiDestroyDeviceInfoList])
      end
  end.

(** A heap on which every sizing call reports a size the field fits in and
    every [malloc] returns a block. *)
Definition heap_serves (heap : Z -> HubHeap) : Prop :=
  forall i,
    MallocBlock (heap i) = true /\
    exists n, SizingCall (heap i) = Some n /\ sizeof_cbSize <= n.

(** Heaps for the scenarios: one that always serves, one on which [malloc]
    returns NULL while the hub with member index [j] is processed, one on
    which no sizing call stores a size. *)
Definition heap_plentiful : Z -> HubHeap :=
  fun _ => {| SizingCall := Some 64; MallocBlock := true |}.

Definition heap_null_at (j : Z) : Z -> HubHeap :=
  fun i => {| SizingCall := Some 64; MallocBlock := negb (i =? j) |}.

Definition heap_unsized : Z -> HubHeap :=
  fun _ => {| SizingCall := None; MallocBlock := true |}.

(** ** Reading a number back from its digits *)

Definition digit_value (c : ascii) : option Z :=
  let n := Z.of_N (N_of_ascii c) in
  if (48 <=? n) && (n <=? 57) then Some (n - 48) else None.

Fixpoint digits_value (acc : Z) (s : string) : option Z :=
  match s with
  | EmptyString => Some acc
  | String c rest =>
      match digit_value c with
      | Some d => digits_value (10 * acc + d) rest
      | None => None
      end
  end.

(** The number that a decimal numeral without sign and without leading
    zero denotes; [None] for any other text. *)
Definition numeral_value (s : string) : option Z :=
  match s with
  | EmptyString => None
  | String c rest =>
      if Ascii.eqb c "0" && negb (String.eqb rest "") then None
      else digits_value 0 s
  end.

(** The registry reads among the calls. *)
Definition is_registry_read (c : OsCall) : bool :=
  match c with
  | Call_DeviceRegistryProperty _ _ _ => true
  | _ => false
  end.

Definition registry_reads (log : list OsCall) : nat :=
  length (List.filter is_registry_read log).

(** The ports whose connection was queried, with their hub, in call order. *)
Definition queried_port (c : OsCall) : option (Z * Z) :=
  match c with
  | Call_ConnectionInformation h p _ => Some (h, p)
  | _ => None
  end.

Definition queried_ports (log : list OsCall) : list (Z * Z) :=
  omap queried_port log.

(** The ports of the hubs that resolved, opened and answered the
    node-information request, hub by hub from listing position [pos]. *)
Definition ports_of_hub (hub : HubInterface) : list Z :=
  match InterfaceDetail hub, CreateFileA hub, NodeInformation hub with
  | Some _, true, Some portCount => port_range (int_of_UCHAR portCount)
  | _, _, _ => []
  end.

Fixpoint ports_from (pos : nat) (listing : list HubInterface)
  : list (Z * Z) :=
  match listing with
  | [] => []
  | hub :: rest =>
      map (fun p => (Z.of_nat pos, p)) (ports_of_hub hub)
        ++ ports_from (S pos) rest
  end.

(** ** Properties of the store *)

Lemma store_ok_initial : store_ok initial.
Proof. split; [cbv; split; discriminate | apply length_replicate]. Qed.

Lemma emitted_length (st : Globals) :
  store_ok st -> length (emitted st) = Z.to_nat (g_deviceCount st).
Proof.
  intros [Hc Hl]. unfold emitted. rewrite length_take, Hl.
  unfold MAX_DEVICES in *. lia.
Qed.

Lemma take_cap_app {A} (n : nat) (l m : list A) :
  take n (take n l ++ m) = take n (l ++ m).
Proof.
  destruct (decide (length l <= n)%nat) as [Hle|Hgt].
  - by rewrite (take_ge l n).
  - rewrite !take_app_le by (rewrite ?length_take; lia).
    by rewrite take_take, Nat.min_id.
Qed.

(** One iteration of the port loop appends the port's records, up to the
    capacity. *)
Lemma port_body_emitted hub path hubIdx st port :
  store_ok st ->
  store_ok (port_body hub path hubIdx st port) /\
  emitted (port_body hub path hubIdx st port) =
    take cap (emitted st
              ++ spec_port_records hub path (int_of_DWORD hubIdx) port).
Proof.
  intros Hok. pose proof (emitted_length st Hok) as Hlen.
  destruct Hok as [Hc Hl].
  assert (Hsame : emitted st = take cap (emitted st ++ [])).
  { rewrite app_nil_r, take_ge; [done|]. unfold cap. lia. }
  unfold port_body, spec_port_records, GetPortConnectorProperties.
  destruct (ConnectionInformation hub port) as [ci|]; [|by split].
  destruct (ConnectionStatus ci =? DeviceConnected K); [|by split].
  destruct (Z.ltb_spec (g_deviceCount st) MAX_DEVICES) as [Hlt|Hge].
  - assert (Hd : snd (GetDeviceProperty (DeviceDescProperty hub port) "")
                 = default "" (DeviceDescProperty hub port))
      by (by destruct (DeviceDescProperty hub port)).
    rewrite Hd. split.
    + split; simpl; [lia | by rewrite length_insert].
    + unfold emitted at 1. simpl.
      replace (Z.to_nat (g_deviceCount st + 1))
        with (S (Z.to_nat (g_deviceCount st))) by lia.
      erewrite take_S_r; last first.
      { apply list_lookup_insert_eq. unfold MAX_DEVICES in *. lia. }
      rewrite take_insert_ge by lia. fold (emitted st).
      symmetry. apply take_ge.
      rewrite length_app, Hlen. simpl. unfold cap, MAX_DEVICES in *. lia.
  - split; [by split|].
    rewrite take_app_le; [|unfold cap; lia].
    rewrite take_ge; [done | unfold cap; lia].
Qed.

Lemma port_loop_emitted hub path hubIdx ports st :
  store_ok st ->
  store_ok (fold_left (port_body hub path hubIdx) ports st) /\
  emitted (fold_left (port_body hub path hubIdx) ports st) =
    take cap (emitted st
              ++ flat_map (spec_port_records hub path (int_of_DWORD hubIdx))
                   ports).
Proof.
  revert st. induction ports as [|port ports IH]; intros st Hok; simpl.
  - split; [done|]. rewrite app_nil_r, take_ge; [done|].
    rewrite emitted_length by done. destruct Hok. unfold cap. lia.
  - destruct (port_body_emitted hub path hubIdx st port Hok) as [Hok' Hem].
    destruct (IH _ Hok') as [Hok'' Hem'']. split; [done|].
    by rewrite Hem'', Hem, take_cap_app, <- app_assoc.
Qed.

Lemma filter_no_skip (skip : option Z) (l : list Z) :
  skip = None -> filter (fun port => Some port <> skip) l = l.
Proof.
  intros Hs. induction l as [|x l IH]; [done|].
  rewrite filter_cons_True by (by rewrite Hs). by rewrite IH.
Qed.

Lemma hub_body_emitted hubIdx hub st :
  store_ok st ->
  store_ok (hub_body hubIdx hub st) /\
  emitted (hub_body hubIdx hub st) =
    take cap (emitted st ++ spec_hub_records None (int_of_DWORD hubIdx) hub).
Proof.
  intros Hok.
  assert (Hsame : store_ok st /\ emitted st = take cap (emitted st ++ [])).
  { split; [done|]. rewrite app_nil_r, take_ge; [done|].
    rewrite emitted_length by done. destruct Hok. unfold cap. lia. }
  unfold hub_body, spec_hub_records, OpenDeviceHandle, GetHubNodeInfo.
  destruct (InterfaceDetail hub) as [path|]; [|done].
  destruct (CreateFileA hub); [|done].
  destruct (NodeInformation hub) as [n|]; [|done].
  rewrite filter_no_skip by done. by apply port_loop_emitted.
Qed.

Lemma hub_loop_emitted listing hubIdx st :
  store_ok st ->
  store_ok (hub_loop listing hubIdx st) /\
  emitted (hub_loop listing hubIdx st) =
    take cap (emitted st ++ loop_records listing hubIdx).
Proof.
  revert hubIdx st. induction listing as [|hub rest IH]; intros hubIdx st Hok.
  - simpl. split; [done|]. rewrite app_nil_r, take_ge; [done|].
    rewrite emitted_length by done. destruct Hok. unfold cap. lia.
  - simpl. destruct (hub_body_emitted hubIdx hub st Hok) as [Hok' Hem].
    destruct (IH (DWORD_incr hubIdx) _ Hok') as [Hok'' Hem'']. split; [done|].
    by rewrite Hem'', Hem, take_cap_app, <- app_assoc.
Qed.

(** The [while] loop ends after one iteration per listed hub, plus the
    call that finds no further member, and computes [hub_loop]. *)
Lemma hub_while_from set rest (pos : nat) st :
  Z.of_nat (length set) < 2 ^ 32 ->
  drop pos set = rest ->
  hub_while (S (length rest)) set (Z.of_nat pos) st
  = Some (hub_loop rest (Z.of_nat pos) st).
Proof.
  intros Hb. revert pos st. induction rest as [|hub rest IH]; intros pos st Hd.
  - assert (Hend : set !! pos = None).
    { pose proof (lookup_drop set pos 0) as Hp.
      rewrite Hd, Nat.add_0_r in Hp. done. }
    simpl. unfold SetupDiEnumDeviceInterfaces. by rewrite Nat2Z.id, Hend.
  - assert (Hhub : set !! pos = Some hub).
    { pose proof (lookup_drop set pos 0) as Hp.
      rewrite Hd, Nat.add_0_r in Hp. done. }
    pose proof (lookup_lt_Some _ _ _ Hhub) as Hlt.
    cbn [hub_while hub_loop length]. unfold SetupDiEnumDeviceInterfaces.
    rewrite Nat2Z.id, Hhub.
    replace (DWORD_incr (Z.of_nat pos)) with (Z.of_nat (S pos)).
    + apply IH. by rewrite (drop_S _ _ _ Hhub) in Hd; injection Hd.
    + unfold DWORD_incr. rewrite Z.mod_small; lia.
Qed.

Lemma hub_while_unrolled set st :
  Z.of_nat (length set) < 2 ^ 32 ->
  hub_while (S (length set)) set 0 st = Some (hub_loop set 0 st).
Proof. intros Hb. by apply (hub_while_from set set 0). Qed.

(** While the counter stays below [2^31], neither the increment nor the
    conversion to [int] wraps, and the loops number hubs by position. *)
Lemma loop_records_spec listing (pos : nat) :
  Z.of_nat pos + Z.of_nat (length listing) <= 2 ^ 31 ->
  loop_records listing (Z.of_nat pos) = spec_records_from None pos listing.
Proof.
  revert pos. induction listing as [|hub rest IH]; intros pos Hb; [done|].
  simpl in *. f_equal.
  - f_equal. unfold int_of_DWORD.
    destruct (Z.ltb_spec (Z.of_nat pos) (2 ^ 31)); lia.
  - replace (DWORD_incr (Z.of_nat pos)) with (Z.of_nat (S pos)).
    + apply IH. lia.
    + unfold DWORD_incr. rewrite Z.mod_small; lia.
Qed.

Lemma flat_map_length_ext {A B} (f g : A -> list B) (l : list A) :
  (forall x, length (f x) = length (g x)) ->
  length (flat_map f l) = length (flat_map g l).
Proof.
  intros Hfg. induction l as [|x l IH]; [done|].
  simpl. by rewrite !length_app, Hfg, IH.
Qed.

Lemma spec_hub_records_length skip i j hub :
  length (spec_hub_records skip i hub) = length (spec_hub_records skip j hub).
Proof.
  unfold spec_hub_records.
  destruct (InterfaceDetail hub) as [path|]; [|done].
  destruct (CreateFileA hub); [|done].
  destruct (NodeInformation hub) as [n|]; [|done].
  apply flat_map_length_ext. intros port. unfold spec_port_records.
  destruct (ConnectionInformation hub port) as [ci|]; [|done].
  by destruct (ConnectionStatus ci =? DeviceConnected K).
Qed.

(** The number of records does not depend on how hubs are numbered. *)
Lemma loop_records_length listing hubIdx pos :
  length (loop_records listing hubIdx)
  = length (spec_records_from None pos listing).
Proof.
  revert hubIdx pos. induction listing as [|hub rest IH]; intros; [done|].
  simpl. rewrite !length_app, (IH _ (S pos)).
  by rewrite (spec_hub_records_length _ _ (Z.of_nat pos)).
Qed.

(** A pass that starts leaves the store holding the records of the loops,
    cut at the capacity, and returns their number. *)
Lemma enumerate_started w st listing :
  SetupDiGetClassDevs w = Some listing ->
  let res := EnumerateUSBDevices w st in
  store_ok (snd res) /\
  fst res = g_deviceCount (snd res) /\
  emitted (snd res) = take cap (loop_records listing 0).
Proof.
  intros Hl. unfold EnumerateUSBDevices. rewrite Hl. simpl.
  destruct (hub_loop_emitted listing 0 initial store_ok_initial) as [Hok Hem].
  repeat split; try apply Hok. exact Hem.
Qed.

Lemma enumerate_fatal w st :
  SetupDiGetClassDevs w = None ->
  EnumerateUSBDevices w st = (-1, initial).
Proof. intros Hl. unfold EnumerateUSBDevices. by rewrite Hl. Qed.

(** Every call of [EnumerateUSBDevices] leaves the globals well formed. *)
Lemma enumerate_store_ok w st : store_ok (snd (EnumerateUSBDevices w st)).
Proof.
  destruct (SetupDiGetClassDevs w) as [listing|] eqn:Hl.
  - by destruct (enumerate_started w st listing Hl) as (Hok & _).
  - rewrite (enumerate_fatal w st Hl). apply store_ok_initial.
Qed.

Lemma count_is_length st :
  store_ok st -> g_deviceCount st = Z.of_nat (length (emitted st)).
Proof. intros Hok. rewrite emitted_length by done. destruct Hok. lia. Qed.

(** ** What a record of the pass says about its port and hub *)

Lemma port_range_elem (p n : Z) : p ∈ port_range n <-> 1 <= p <= n.
Proof. unfold port_range. rewrite elem_of_seqZ. lia. Qed.

Lemma int_of_UCHAR_range (b : byte) : 0 <= int_of_UCHAR b <= 255.
Proof. unfold int_of_UCHAR. pose proof (Byte.to_N_bounded b). lia. Qed.

Lemma elem_of_flat_map {A B} (f : A -> list B) (l : list A) (y : B) :
  y ∈ flat_map f l <-> exists x, x ∈ l /\ y ∈ f x.
Proof.
  rewrite list_elem_of_In, in_flat_map. split; intros (x & Hx & Hy); exists x.
  - by rewrite !list_elem_of_In.
  - by rewrite <- !list_elem_of_In.
Qed.

Lemma spec_port_records_elem r hub path hubIdx port :
  r ∈ spec_port_records hub path hubIdx port <->
  exists connInfo,
    ConnectionInformation hub port = Some connInfo /\
    ConnectionStatus connInfo = DeviceConnected K /\
    r = device_record path hubIdx port connInfo
          (default "" (DeviceDescProperty hub port)).
Proof.
  unfold spec_port_records.
  destruct (ConnectionInformation hub port) as [ci|].
  - destruct (Z.eqb_spec (ConnectionStatus ci) (DeviceConnected K)) as [He|Hn].
    + rewrite list_elem_of_singleton. split.
      * intros ->. by exists ci.
      * intros (ci' & [= <-] & _ & ->). done.
    + rewrite elem_of_nil. split; [done|].
      intros (ci' & [= <-] & He & _). done.
  - rewrite elem_of_nil. split; [done|]. by intros (ci' & [=] & _).
Qed.

Lemma spec_hub_records_elem r skip hubIdx hub :
  r ∈ spec_hub_records skip hubIdx hub <->
  exists path portCount connInfo,
    InterfaceDetail hub = Some path /\
    CreateFileA hub = true /\
    NodeInformation hub = Some portCount /\
    1 <= portNumber r <= int_of_UCHAR portCount /\
    Some (portNumber r) <> skip /\
    ConnectionInformation hub (portNumber r) = Some connInfo /\
    ConnectionStatus connInfo = DeviceConnected K /\
    r = device_record path hubIdx (portNumber r) connInfo
          (default "" (DeviceDescProperty hub (portNumber r))).
Proof.
  unfold spec_hub_records. split.
  - destruct (InterfaceDetail hub) as [path|]; [|by rewrite elem_of_nil].
    destruct (CreateFileA hub); [|by rewrite elem_of_nil].
    destruct (NodeInformation hub) as [n|]; [|by rewrite elem_of_nil].
    rewrite elem_of_flat_map. intros (port & Hport & Hr).
    apply list_elem_of_filter in Hport as [Hskip Hport].
    apply port_range_elem in Hport.
    apply spec_port_records_elem in Hr as (ci & Hci & Hst & ->).
    exists path, n, ci. simpl. done.
  - intros (path & n & ci & -> & -> & -> & Hp & Hskip & Hci & Hst & Hr).
    rewrite elem_of_flat_map. exists (portNumber r). split.
    + apply list_elem_of_filter. split; [done|]. by apply port_range_elem.
    + apply spec_port_records_elem. by exists ci.
Qed.

Lemma spec_records_from_elem r skip pos listing :
  r ∈ spec_records_from skip pos listing <->
  exists i hub,
    listing !! i = Some hub /\
    r ∈ spec_hub_records (skip_at skip (pos + i)) (Z.of_nat (pos + i)%nat) hub.
Proof.
  revert pos. induction listing as [|hub rest IH]; intros pos; simpl.
  - rewrite elem_of_nil. split; [done|]. by intros (i & h & [=] & _).
  - rewrite elem_of_app, IH. split.
    + intros [Hr|(i & h & Hi & Hr)].
      * exists 0%nat, hub. by rewrite Nat.add_0_r.
      * exists (S i), h. split; [done|].
        by replace (pos + S i)%nat with (S pos + i)%nat by lia.
    + intros ([|i] & h & Hi & Hr).
      * left. simpl in Hi. injection Hi as <-. by rewrite Nat.add_0_r in Hr.
      * right. exists i, h. split; [done|].
        by replace (S pos + i)%nat with (pos + S i)%nat by lia.
Qed.

(** Every record of a pass sits at the listing position its [hubIndex]
    names, on a hub that was opened and queried, at a connected port. *)
Lemma spec_pass_records_elem r listing :
  r ∈ spec_pass_records listing ->
  0 <= hubIndex r < Z.of_nat (length listing) /\
  exists hub,
    listing !! Z.to_nat (hubIndex r) = Some hub /\
    r ∈ spec_hub_records None (hubIndex r) hub.
Proof.
  unfold spec_pass_records. rewrite spec_records_from_elem.
  intros (i & hub & Hi & Hr). simpl in Hr.
  pose proof (lookup_lt_Some _ _ _ Hi) as Hlt.
  pose proof Hr as Hr'.
  apply spec_hub_records_elem in Hr'
    as (path & n & ci & _ & _ & _ & _ & _ & _ & _ & Heq).
  assert (Hidx : hubIndex r = Z.of_nat i) by (by rewrite Heq).
  rewrite Hidx, Nat2Z.id. split; [lia|]. by exists hub.
Qed.

(** Up to [2^31] listed hubs, the store after a pass that starts holds the
    first [MAX_DEVICES] records of the traversal as specified. *)
Lemma enumerate_refines_spec w st listing :
  SetupDiGetClassDevs w = Some listing ->
  Z.of_nat (length listing) <= 2 ^ 31 ->
  emitted (snd (EnumerateUSBDevices w st))
  = take cap (spec_pass_records listing).
Proof.
  intros Hl Hb.
  destruct (enumerate_started w st listing Hl) as (_ & _ & ->).
  unfold spec_pass_records.
  by rewrite <- (loop_records_spec listing 0) by (simpl; lia).
Qed.

Lemma elem_of_take_1 {A} (x : A) n l : x ∈ take n l -> x ∈ l.
Proof.
  rewrite elem_of_take. intros (i & Hi & _). by eapply list_elem_of_lookup_2.
Qed.

(** ** Ports and hubs that contribute nothing *)

Lemma port_silent_no_records hub path hubIdx p :
  port_silent hub p -> spec_port_records hub path hubIdx p = [].
Proof.
  unfold port_silent, spec_port_records.
  destruct (ConnectionInformation hub p) as [ci|]; [|done].
  intros Hne. by destruct (Z.eqb_spec (ConnectionStatus ci) (DeviceConnected K)).
Qed.

Lemma port_silent_body hub path hubIdx st p :
  port_silent hub p -> port_body hub path hubIdx st p = st.
Proof.
  unfold port_silent, port_body, GetPortConnectorProperties.
  destruct (ConnectionInformation hub p) as [ci|]; [|done].
  intros Hne. by destruct (Z.eqb_spec (ConnectionStatus ci) (DeviceConnected K)).
Qed.

Lemma flat_map_skip_empty {B} (f : Z -> list B) (l : list Z) (p : Z) :
  f p = [] ->
  flat_map f (filter (fun port => Some port <> Some p) l) = flat_map f l.
Proof.
  intros Hp. induction l as [|x l IH]; [done|].
  rewrite filter_cons. destruct (decide (Some x <> Some p)) as [Hne|He]; simpl.
  - by rewrite IH.
  - assert (x = p) as ->.
    { destruct (decide (x = p)) as [|Hxp]; [done|].
      exfalso. apply He. by intros [= ?]. }
    by rewrite Hp, IH.
Qed.

Lemma spec_hub_records_skip_silent hub hubIdx p :
  port_silent hub p ->
  spec_hub_records (Some p) hubIdx hub = spec_hub_records None hubIdx hub.
Proof.
  intros Hs. unfold spec_hub_records.
  destruct (InterfaceDetail hub) as [path|]; [|done].
  destruct (CreateFileA hub); [|done].
  destruct (NodeInformation hub) as [n|]; [|done].
  rewrite (filter_no_skip None) by done.
  apply flat_map_skip_empty. by apply port_silent_no_records.
Qed.

Lemma spec_records_from_skip_silent h p pos listing :
  (forall i hub,
     listing !! i = Some hub -> (pos + i)%nat = h -> port_silent hub p) ->
  spec_records_from (Some (h, p)) pos listing
  = spec_records_from None pos listing.
Proof.
  revert pos. induction listing as [|hub rest IH]; intros pos Hs; [done|].
  simpl. f_equal.
  - destruct (decide (h = pos)) as [->|Hne]; [|done].
    apply spec_hub_records_skip_silent. apply (Hs 0%nat); [done | lia].
  - apply IH. intros i hub' Hi Hpos. apply (Hs (S i)); [done | lia].
Qed.

Lemma hub_fails_no_records skip hubIdx hub :
  hub_fails hub -> spec_hub_records skip hubIdx hub = [].
Proof.
  unfold spec_hub_records. intros [->| [Ho|Hn]]; [done| |].
  - rewrite Ho. by destruct (InterfaceDetail hub).
  - rewrite Hn. by destruct (InterfaceDetail hub), (CreateFileA hub).
Qed.

(** With an empty hub name, the composed description of a port of a hub
    (at most 255 ports) fits the buffer. *)
Lemma desc_without_name (p : Z) :
  1 <= p <= 255 ->
  snprintf MAX_DESC_LEN ("Hub: " +:+ "" +:+ ", Port: " +:+ decimal p)
  = "Hub: , Port: " +:+ decimal p.
Proof.
  intros Hp.
  assert (Hall : forallb
            (fun q => String.eqb
               (snprintf MAX_DESC_LEN
                  ("Hub: " +:+ "" +:+ ", Port: " +:+ decimal q))
               ("Hub: , Port: " +:+ decimal q))
            (port_range 255) = true) by (vm_compute; reflexivity).
  rewrite forallb_forall in Hall.
  apply String.eqb_eq, Hall, list_elem_of_In, port_range_elem. lia.
Qed.

(** ** The claims *)

(** C1. Every record a pass leaves in the store has [portNumber] between 1
    and the port count that the node-information query of its hub
    reported, has [hubIndex] between 0 and the number of listed hubs minus
    one, and stands for a port whose connection query succeeded with
    status connected; so no record stands for a port of any other status.
    (The listing is taken to have at most [2^31] hubs, the range in which
    the [DWORD] counter fits the [int] field.) *)
Theorem emitted_records_in_range w st listing r :
  SetupDiGetClassDevs w = Some listing ->
  Z.of_nat (length listing) <= 2 ^ 31 ->
  r ∈ emitted (snd (EnumerateUSBDevices w st)) ->
  0 <= hubIndex r <= Z.of_nat (length listing) - 1 /\
  exists hub portCount connInfo,
    listing !! Z.to_nat (hubIndex r) = Some hub /\
    GetHubNodeInfo hub = Some portCount /\
    1 <= portNumber r <= int_of_UCHAR portCount /\
    GetPortConnectorProperties hub (portNumber r) = Some connInfo /\
    ConnectionStatus connInfo = DeviceConnected K.
Proof.
  intros Hl Hb Hr.
  rewrite (enumerate_refines_spec w st listing Hl Hb) in Hr.
  apply elem_of_take_1, spec_pass_records_elem in Hr
    as [Hidx (hub & Hhub & Hr)].
  split; [lia|].
  apply spec_hub_records_elem in Hr
    as (path & n & ci & _ & _ & Hn & Hp & _ & Hci & Hst & _).
  by exists hub, n, ci.
Qed.

(** Of a pass that returns: the value is -1 exactly when
    SetupDiGetClassDevs gives no device information set, and it is
    negative in no other case; whatever path resolutions, opens,
    node-information queries, port queries or property reads fail, the
    value is then a count between 0 and [MAX_DEVICES]. *)
Lemma enumerate_negative_iff_listing_fails w st :
  (fst (EnumerateUSBDevices w st) = -1 <-> SetupDiGetClassDevs w = None) /\
  (fst (EnumerateUSBDevices w st) < 0 <-> SetupDiGetClassDevs w = None) /\
  (SetupDiGetClassDevs w <> None ->
   0 <= fst (EnumerateUSBDevices w st) <= MAX_DEVICES).
Proof.
  destruct (SetupDiGetClassDevs w) as [listing|] eqn:Hl.
  - destruct (enumerate_started w st listing Hl) as ([Hc _] & Hret & _).
    rewrite Hret. repeat split; try done; lia.
  - rewrite (enumerate_fatal w st Hl). simpl. repeat split; try done; lia.
Qed.

(** C4. The speed mapping is a function on all input values: Low gives 0,
    Full 1, High 2, Super 3, and every other value gives -1; the result
    lies in 0..3 exactly for the four known classes, so -1 is never the
    code of a known class.  It is the mapping stored in the [speed] field
    of every record built. *)
Theorem map_speed_table :
  distinct_speeds K ->
  map_speed (UsbLowSpeed K) = 0 /\
  map_speed (UsbFullSpeed K) = 1 /\
  map_speed (UsbHighSpeed K) = 2 /\
  map_speed (UsbSuperSpeed K) = 3 /\
  (forall s,
     s <> UsbLowSpeed K -> s <> UsbFullSpeed K ->
     s <> UsbHighSpeed K -> s <> UsbSuperSpeed K ->
     map_speed s = -1) /\
  (forall s,
     0 <= map_speed s <= 3 <->
     s ∈ [UsbLowSpeed K; UsbFullSpeed K; UsbHighSpeed K; UsbSuperSpeed K]) /\
  (forall path hubIdx port connInfo hubDesc,
     speed (device_record path hubIdx port connInfo hubDesc)
     = map_speed (int_of_UCHAR (Speed connInfo))).
Proof.
  unfold distinct_speeds. rewrite !NoDup_cons, !not_elem_of_cons.
  intros ((Hlf & Hlh & Hls & _) & (Hfh & Hfs & _) & (Hhs & _) & _).
  assert (Hcases : forall s,
    (s = UsbLowSpeed K /\ map_speed s = 0) \/
    (s = UsbFullSpeed K /\ map_speed s = 1) \/
    (s = UsbHighSpeed K /\ map_speed s = 2) \/
    (s = UsbSuperSpeed K /\ map_speed s = 3) \/
    (s <> UsbLowSpeed K /\ s <> UsbFullSpeed K /\ s <> UsbHighSpeed K /\
     s <> UsbSuperSpeed K /\ map_speed s = -1)).
  { intros s. unfold map_speed.
    destruct (Z.eqb_spec s (UsbLowSpeed K)); [by left|].
    destruct (Z.eqb_spec s (UsbFullSpeed K)); [by right; left|].
    destruct (Z.eqb_spec s (UsbHighSpeed K)); [by right; right; left|].
    destruct (Z.eqb_spec s (UsbSuperSpeed K)); [by right; right; right; left|].
    by right; right; right; right. }
  split; [|split; [|split; [|split; [|split; [|split]]]]].
  - destruct (Hcases (UsbLowSpeed K)) as [[_ ?]|[[? _]|[[? _]|[[? _]|[? _]]]]];
      congruence.
  - destruct (Hcases (UsbFullSpeed K)) as [[? _]|[[_ ?]|[[? _]|[[? _]|(_ & ? & _)]]]];
      congruence.
  - destruct (Hcases (UsbHighSpeed K))
      as [[? _]|[[? _]|[[_ ?]|[[? _]|(_ & _ & ? & _)]]]]; congruence.
  - destruct (Hcases (UsbSuperSpeed K))
      as [[? _]|[[? _]|[[? _]|[[_ ?]|(_ & _ & _ & ? & _)]]]]; congruence.
  - intros s H1 H2 H3 H4.
    destruct (Hcases s) as [[? _]|[[? _]|[[? _]|[[? _]|(_ & _ & _ & _ & ?)]]]];
      congruence.
  - intros s. rewrite !elem_of_cons, elem_of_nil.
    destruct (Hcases s)
      as [[? E]|[[? E]|[[? E]|[[? E]|(? & ? & ? & ? & E)]]]]; rewrite E;
      split; try tauto; try lia.
  - reflexivity.
Qed.

(** On well-formed globals [GetDeviceInfo] never reads outside the array. *)
Lemma get_device_info_defined st index outInfo :
  store_ok st -> is_Some (GetDeviceInfo index outInfo st).
Proof.
  intros [Hc Hlen]. unfold GetDeviceInfo.
  destruct (Z.ltb_spec index 0); [done|].
  destruct (Z.geb_spec index (g_deviceCount st)); [done|].
  destruct (is_NULL outInfo); [done|]. simpl.
  destruct (lookup_lt_is_Some_2 (g_devices st) (Z.to_nat index)) as [r ->];
    [|done].
  rewrite Hlen. unfold MAX_DEVICES in *. lia.
Qed.

(** C5. For an index that is negative or not below the current count,
    [GetDeviceInfo] returns 0 and hands out no record at all: the caller's
    buffer is as it was.  For an index from 0 to the count minus one it
    returns 1 and the buffer then holds the record stored at that index. *)
Theorem get_device_info_by_index st index :
  store_ok st ->
  (index < 0 \/ index >= g_deviceCount st ->
   forall outInfo, GetDeviceInfo index outInfo st = Some (0, outInfo, st)) /\
  (0 <= index <= g_deviceCount st - 1 ->
   exists r,
     emitted st !! Z.to_nat index = Some r /\
     g_devices st !! Z.to_nat index = Some r /\
     forall buf, GetDeviceInfo index (Some buf) st = Some (1, Some r, st)).
Proof.
  intros [Hc Hlen]. unfold GetDeviceInfo. split.
  - intros Hout outInfo.
    destruct (Z.ltb_spec index 0); [done|].
    destruct (Z.geb_spec index (g_deviceCount st)); [done|]. lia.
  - intros Hin.
    destruct (lookup_lt_is_Some_2 (g_devices st) (Z.to_nat index)) as [r Hr].
    { rewrite Hlen. unfold MAX_DEVICES in *. lia. }
    exists r. split; [|split; [done|]].
    + unfold emitted. rewrite lookup_take_lt by lia. done.
    + intros buf.
      destruct (Z.ltb_spec index 0); [lia|].
      destruct (Z.geb_spec index (g_deviceCount st)); [lia|].
      simpl. by rewrite Hr.
Qed.

(** C6. In a pass the hub at listing position [i] is numbered [i], whether
    or not its path resolves, it opens and its node information is read:
    the store holds the first records of the traversal in which position
    and [hubIndex] coincide, so every record carries the listing position
    of the hub it came from.  A hub that fails contributes no record, and
    its position is the [hubIndex] of no record in the store. *)
Theorem hub_index_is_listing_position w st listing :
  SetupDiGetClassDevs w = Some listing ->
  Z.of_nat (length listing) <= 2 ^ 31 ->
  let st' := snd (EnumerateUSBDevices w st) in
  emitted st' = take cap (spec_pass_records listing) /\
  (forall r, r ∈ emitted st' ->
     exists hub,
       listing !! Z.to_nat (hubIndex r) = Some hub /\
       r ∈ spec_hub_records None (hubIndex r) hub /\
       ~ hub_fails hub) /\
  (forall i hub,
     listing !! i = Some hub -> hub_fails hub ->
     spec_hub_records None (Z.of_nat i) hub = [] /\
     (forall hubIdx g, hub_body hubIdx hub g = g) /\
     forall r, r ∈ emitted st' -> hubIndex r <> Z.of_nat i).
Proof.
  intros Hl Hb st'.
  pose proof (enumerate_refines_spec w st listing Hl Hb) as Hem.
  fold st' in Hem.
  assert (Hown : forall r, r ∈ emitted st' ->
     exists hub,
       listing !! Z.to_nat (hubIndex r) = Some hub /\
       r ∈ spec_hub_records None (hubIndex r) hub /\
       ~ hub_fails hub).
  { intros r Hr. rewrite Hem in Hr.
    apply elem_of_take_1, spec_pass_records_elem in Hr
      as [_ (hub & Hhub & Hr)].
    exists hub. split; [done|]. split; [done|].
    intros Hf. rewrite (hub_fails_no_records _ _ _ Hf) in Hr.
    by apply elem_of_nil in Hr. }
  split; [done|]. split; [done|].
  intros i hub Hi Hf. split; [by apply hub_fails_no_records|]. split.
  - intros hubIdx g. unfold hub_body, OpenDeviceHandle, GetHubNodeInfo.
    destruct Hf as [->| [Ho|Hn]]; [done| |].
    + rewrite Ho. by destruct (InterfaceDetail hub).
    + rewrite Hn. by destruct (InterfaceDetail hub), (CreateFileA hub).
  - intros r Hr Heq. destruct (Hown r Hr) as (hub' & Hhub' & _ & Hnf).
    rewrite Heq, Nat2Z.id, Hi in Hhub'. by injection Hhub' as <-.
Qed.

(** C7. A port whose connection query fails, or succeeds with a status
    other than connected, leaves the globals untouched when the loop
    reaches it, and the pass goes on: the store and the returned count are
    those of the traversal over all other ports of the hub and all other
    hubs, in which that port is not visited at all. *)
Theorem silent_port_contributes_nothing w st listing h hub p :
  SetupDiGetClassDevs w = Some listing ->
  Z.of_nat (length listing) <= 2 ^ 31 ->
  listing !! h = Some hub ->
  port_silent hub p ->
  let res := EnumerateUSBDevices w st in
  (forall path hubIdx g, port_body hub path hubIdx g p = g) /\
  emitted (snd res) = take cap (spec_pass_records_without h p listing) /\
  fst res
  = Z.of_nat (length (take cap (spec_pass_records_without h p listing))).
Proof.
  intros Hl Hb Hh Hs res.
  assert (Heq : spec_pass_records_without h p listing
                = spec_pass_records listing).
  { apply spec_records_from_skip_silent. intros i hub' Hi Hpos.
    simpl in Hpos. subst i. rewrite Hh in Hi. by injection Hi as <-. }
  rewrite Heq.
  destruct (enumerate_started w st listing Hl) as (Hok & Hret & _).
  pose proof (enumerate_refines_spec w st listing Hl Hb) as Hem.
  fold res in Hok, Hret, Hem.
  split; [intros; by apply port_silent_body|]. split; [done|].
  by rewrite Hret, (count_is_length _ Hok), Hem.
Qed.

(** The text [%d] writes for a port number reads back as that number. *)
Lemma decimal_reads_back (p : Z) :
  1 <= p <= 255 -> numeral_value (decimal p) = Some p.
Proof.
  intros Hp.
  assert (Hall : forallb
            (fun q => match numeral_value (decimal q) with
                      | Some v => v =? q
                      | None => false
                      end)
            (port_range 255) = true) by (vm_compute; reflexivity).
  rewrite forallb_forall in Hall.
  specialize (Hall p). rewrite <- list_elem_of_In, port_range_elem in Hall.
  specialize (Hall ltac:(lia)).
  destruct (numeral_value (decimal p)) as [v|]; [|done].
  apply Z.eqb_eq in Hall. by subst.
Qed.

(** C8. When the read of the hub's description fails while a connected
    port is recorded, the record is built all the same, with the
    description "Hub: , Port: N" for port N, the text after "Port: " being
    the decimal numeral of the port number: it is part of the traversal's
    records, and it is in the store at its place in that sequence whenever
    that place is below the capacity. *)
Theorem description_failure_keeps_record w st listing i hub path portCount
    p connInfo :
  SetupDiGetClassDevs w = Some listing ->
  Z.of_nat (length listing) <= 2 ^ 31 ->
  listing !! i = Some hub ->
  InterfaceDetail hub = Some path ->
  OpenDeviceHandle hub path = true ->
  GetHubNodeInfo hub = Some portCount ->
  1 <= p <= int_of_UCHAR portCount ->
  GetPortConnectorProperties hub p = Some connInfo ->
  ConnectionStatus connInfo = DeviceConnected K ->
  fst (GetDeviceProperty (DeviceDescProperty hub p) "") = false ->
  exists k r digits,
    spec_pass_records listing !! k = Some r /\
    hubIndex r = Z.of_nat i /\
    portNumber r = p /\
    deviceDesc r = "Hub: , Port: " +:+ digits /\
    numeral_value digits = Some p /\
    ((k < cap)%nat ->
     emitted (snd (EnumerateUSBDevices w st)) !! k = Some r).
Proof.
  intros Hl Hb Hi Hpath Hopen Hn Hp Hci Hst Hdesc.
  assert (Hnone : DeviceDescProperty hub p = None)
    by (by destruct (DeviceDescProperty hub p)).
  assert (Hp255 : 1 <= p <= 255)
    by (pose proof (int_of_UCHAR_range portCount); lia).
  set (r := device_record path (Z.of_nat i) p connInfo "").
  assert (Hr : r ∈ spec_pass_records listing).
  { unfold spec_pass_records. apply spec_records_from_elem.
    exists i, hub. split; [done|]. simpl.
    apply spec_hub_records_elem. exists path, portCount, connInfo.
    simpl. rewrite Hnone. done. }
  apply list_elem_of_lookup_1 in Hr as [k Hk].
  exists k, r, (decimal p).
  split; [done|]. split; [done|]. split; [done|]. split; [|split].
  - simpl. by apply desc_without_name.
  - by apply decimal_reads_back.
  - intros Hlt. rewrite (enumerate_refines_spec w st listing Hl Hb).
    by rewrite lookup_take_lt.
Qed.

(** C9. When the pass fails fatally and returns -1, the store has been
    cleared all the same: [GetDeviceCount] then returns 0, [GetDeviceInfo]
    returns 0 for every index, no record remains retrievable, and every
    slot of the array is zero. *)
Theorem fatal_pass_clears_store w st :
  SetupDiGetClassDevs w = None ->
  let res := EnumerateUSBDevices w st in
  fst res = -1 /\
  GetDeviceCount (snd res) = 0 /\
  emitted (snd res) = [] /\
  (forall index outInfo,
     GetDeviceInfo index outInfo (snd res) = Some (0, outInfo, snd res)) /\
  (forall r, r ∈ g_devices (snd res) -> r = zeroed).
Proof.
  intros Hl res. unfold res. rewrite (enumerate_fatal w st Hl).
  cbn [fst snd]. split; [done|]. split; [done|]. split; [done|]. split.
  - intros index outInfo. unfold GetDeviceInfo. cbn [initial g_deviceCount].
    destruct (Z.ltb_spec index 0); [done|].
    destruct (Z.geb_spec index 0); [done|]. lia.
  - intros r Hr. unfold initial in Hr. cbn [g_devices] in Hr.
    by apply elem_of_replicate in Hr as [-> _].
Qed.

(** C10. With a null output pointer [GetDeviceInfo] returns 0 for every
    index and writes nothing; and whenever a call returns 0, for a null
    pointer or an index out of range, the output buffer and the globals
    are exactly as before the call. *)
Theorem get_device_info_failure_is_silent st index :
  GetDeviceInfo index None st = Some (0, None, st) /\
  (forall buf,
     index < 0 \/ index >= g_deviceCount st ->
     GetDeviceInfo index (Some buf) st = Some (0, Some buf, st)) /\
  (forall outInfo outInfo' st',
     GetDeviceInfo index outInfo st = Some (0, outInfo', st') ->
     outInfo' = outInfo /\ st' = st).
Proof.
  unfold GetDeviceInfo. split; [|split].
  - by rewrite orb_true_r.
  - intros buf Hout.
    destruct (Z.ltb_spec index 0); [done|].
    destruct (Z.geb_spec index (g_deviceCount st)); [done|]. lia.
  - intros outInfo outInfo' st'.
    destruct (_ || _ || _).
    + by intros [= <- <-].
    + by destruct (g_devices st !! Z.to_nat index).
Qed.

(** ** Further properties of the traversal *)

Lemma port_body_unused hub path hubIdx st port :
  store_ok st -> unused_slots_zeroed st ->
  unused_slots_zeroed (port_body hub path hubIdx st port).
Proof.
  intros [Hc Hl] Hz. unfold port_body.
  destruct (GetPortConnectorProperties hub port) as [ci|]; [|done].
  destruct (ConnectionStatus ci =? DeviceConnected K); [|done].
  destruct (Z.ltb_spec (g_deviceCount st) MAX_DEVICES) as [Hlt|]; [|done].
  intros i Hi. cbn [g_devices g_deviceCount] in *.
  rewrite list_lookup_insert_ne by lia. apply Hz. lia.
Qed.

Lemma port_loop_unused hub path hubIdx ports st :
  store_ok st -> unused_slots_zeroed st ->
  unused_slots_zeroed (fold_left (port_body hub path hubIdx) ports st).
Proof.
  revert st. induction ports as [|port ports IH]; intros st Hok Hz; [done|].
  simpl. apply IH.
  - by apply port_body_emitted.
  - by apply port_body_unused.
Qed.

Lemma hub_body_unused hubIdx hub st :
  store_ok st -> unused_slots_zeroed st ->
  unused_slots_zeroed (hub_body hubIdx hub st).
Proof.
  intros Hok Hz. unfold hub_body.
  destruct (InterfaceDetail hub) as [path|]; [|done].
  destruct (OpenDeviceHandle hub path); [|done].
  destruct (GetHubNodeInfo hub) as [n|]; [|done].
  by apply port_loop_unused.
Qed.

Lemma hub_loop_unused listing hubIdx st :
  store_ok st -> unused_slots_zeroed st ->
  unused_slots_zeroed (hub_loop listing hubIdx st).
Proof.
  revert hubIdx st.
  induction listing as [|hub rest IH]; intros hubIdx st Hok Hz; [done|].
  simpl. apply IH.
  - by apply hub_body_emitted.
  - by apply hub_body_unused.
Qed.

Lemma unused_initial : unused_slots_zeroed initial.
Proof.
  intros i Hi. unfold initial. cbn [g_devices].
  apply lookup_replicate_2. unfold cap in Hi. lia.
Qed.

(** X1. After every call of [EnumerateUSBDevices] the array holds the
    records of that pass followed by all-zero records only: no slot keeps
    anything of an earlier pass. *)
Theorem enumerate_leaves_no_stale_slot w st :
  let st' := snd (EnumerateUSBDevices w st) in
  g_devices st'
  = emitted st' ++ replicate (cap - length (emitted st')) zeroed.
Proof.
  intros st'.
  assert (Hok : store_ok st') by apply enumerate_store_ok.
  assert (Hz : unused_slots_zeroed st').
  { unfold st', EnumerateUSBDevices.
    destruct (SetupDiGetClassDevs w) as [listing|]; cbn [snd].
    - apply hub_loop_unused; [apply store_ok_initial | apply unused_initial].
    - apply unused_initial. }
  pose proof (emitted_length _ Hok) as Hlen. destruct Hok as [Hc Hl].
  rewrite <- (take_drop (Z.to_nat (g_deviceCount st')) (g_devices st')) at 1.
  fold (emitted st'). f_equal.
  apply (list_eq_same_length _ _ (cap - length (emitted st'))%nat).
  - by rewrite length_replicate.
  - rewrite length_drop, Hl, Hlen. done.
  - intros i x y Hi Hx Hy. rewrite lookup_drop in Hx.
    rewrite Hz in Hx by (unfold cap in *; lia).
    apply lookup_replicate in Hy as [-> _]. congruence.
Qed.

(** X2. Whatever hubs remain to be processed, the records already in the
    store stay where they are and the count does not go down: the loops
    only append. *)
Theorem hub_loop_only_appends listing hubIdx st :
  store_ok st ->
  let st' := hub_loop listing hubIdx st in
  emitted st `prefix_of` emitted st' /\
  g_deviceCount st <= g_deviceCount st' /\
  (forall (i : nat) r,
     emitted st !! i = Some r -> g_devices st' !! i = Some r).
Proof.
  intros Hok st'.
  destruct (hub_loop_emitted listing hubIdx st Hok) as [Hok' Hem].
  fold st' in Hok', Hem.
  pose proof (emitted_length _ Hok) as Hlen.
  assert (Hpre : emitted st `prefix_of` emitted st').
  { rewrite Hem, take_app, take_ge.
    - by eexists.
    - destruct Hok. unfold cap. lia. }
  split; [done|]. split.
  - rewrite (count_is_length _ Hok), (count_is_length _ Hok').
    apply prefix_length in Hpre. lia.
  - intros i r Hi. pose proof (prefix_lookup_Some _ _ _ _ Hi Hpre) as Hi'.
    unfold emitted in Hi'. apply lookup_take_Some in Hi'. tauto.
Qed.

Lemma port_body_full hub path hubIdx st port :
  g_deviceCount st >= MAX_DEVICES -> port_body hub path hubIdx st port = st.
Proof.
  intros Hfull. unfold port_body.
  destruct (GetPortConnectorProperties hub port) as [ci|]; [|done].
  destruct (ConnectionStatus ci =? DeviceConnected K); [|done].
  destruct (Z.ltb_spec (g_deviceCount st) MAX_DEVICES); [lia | done].
Qed.

Lemma hub_body_full hubIdx hub st :
  g_deviceCount st >= MAX_DEVICES -> hub_body hubIdx hub st = st.
Proof.
  intros Hfull. unfold hub_body.
  destruct (InterfaceDetail hub) as [path|]; [|done].
  destruct (OpenDeviceHandle hub path); [|done].
  destruct (GetHubNodeInfo hub) as [n|]; [|done].
  induction (port_range (int_of_UCHAR n)) as [|port ports IH]; [done|].
  simpl. by rewrite port_body_full.
Qed.

(** X3. Once the count has reached [MAX_DEVICES], processing any further
    hubs and ports changes neither the array nor the count. *)
Theorem full_store_is_final listing hubIdx st :
  g_deviceCount st >= MAX_DEVICES ->
  hub_loop listing hubIdx st = st.
Proof.
  intros Hfull. revert hubIdx.
  induction listing as [|hub rest IH]; intros hubIdx; [done|].
  simpl. rewrite hub_body_full by done. apply IH.
Qed.

(** *** Strings in the records *)

Lemma substring_length_le (n : nat) (s : string) :
  (String.length (substring 0 n s) <= n)%nat.
Proof.
  revert s. induction n as [|n IH]; intros [|c s]; simpl; try lia.
  specialize (IH s). lia.
Qed.

Lemma substring_whole (n : nat) (s : string) :
  (String.length s <= n)%nat -> substring 0 n s = s.
Proof.
  revert s. induction n as [|n IH]; intros [|c s]; simpl; try done; try lia.
  intros Hl. f_equal. apply IH. lia.
Qed.

Lemma substring_is_prefix (n : nat) (s : string) :
  exists rest, s = substring 0 n s +:+ rest.
Proof.
  revert s. induction n as [|n IH]; intros [|c s]; simpl.
  - by exists "".
  - by exists (String c s).
  - by exists "".
  - destruct (IH s) as [rest Hr]. exists rest.
    change (String c s = String c (substring 0 n s +:+ rest)). by f_equal.
Qed.

Lemma string_app_length (a b : string) :
  String.length (a +:+ b) = (String.length a + String.length b)%nat.
Proof. induction a as [|c a IH]; simpl; [done | by rewrite IH]. Qed.

Lemma decimal_port_length (p : Z) :
  1 <= p <= 255 -> (String.length (decimal p) <= 3)%nat.
Proof.
  intros Hp.
  assert (Hall : forallb
            (fun q => (String.length (decimal q) <=? 3)%nat)
            (port_range 255) = true) by (vm_compute; reflexivity).
  rewrite forallb_forall in Hall.
  apply Nat.leb_le, Hall, list_elem_of_In, port_range_elem. lia.
Qed.

Lemma loop_records_elem r listing hubIdx :
  r ∈ loop_records listing hubIdx ->
  exists hub idx, hub ∈ listing /\ r ∈ spec_hub_records None idx hub.
Proof.
  revert hubIdx. induction listing as [|hub rest IH]; intros hubIdx; simpl.
  - by rewrite elem_of_nil.
  - rewrite elem_of_app. intros [Hr|Hr].
    + exists hub, (int_of_DWORD hubIdx). split; [apply list_elem_of_here|done].
    + destruct (IH _ Hr) as (hub' & idx & Hin & Hr').
      exists hub', idx. split; [by apply list_elem_of_further|done].
Qed.

(** Every record a pass stores was built by [device_record] for a port
    between 1 and 255. *)
Lemma emitted_is_device_record w st r :
  r ∈ emitted (snd (EnumerateUSBDevices w st)) ->
  exists path idx connInfo hubDesc,
    1 <= portNumber r <= 255 /\
    r = device_record path idx (portNumber r) connInfo hubDesc.
Proof.
  destruct (SetupDiGetClassDevs w) as [listing|] eqn:Hl.
  - destruct (enumerate_started w st listing Hl) as (_ & _ & ->).
    intros Hr. apply elem_of_take_1, loop_records_elem in Hr
      as (hub & idx & _ & Hr).
    apply spec_hub_records_elem in Hr
      as (path & n & ci & _ & _ & _ & Hp & _ & _ & _ & Heq).
    exists path, idx, ci, (default "" (DeviceDescProperty hub (portNumber r))).
    split; [|done]. pose proof (int_of_UCHAR_range n). lia.
  - rewrite (enumerate_fatal w st Hl). by intros Hr%elem_of_nil.
Qed.

(** X4. The two strings of every stored record fit their [char] arrays
    with room for the terminating NUL: the description has fewer than
    [MAX_DESC_LEN] characters and the path fewer than [MAX_PATH_LEN]. *)
Theorem stored_strings_fit w st r :
  r ∈ emitted (snd (EnumerateUSBDevices w st)) ->
  Z.of_nat (String.length (deviceDesc r)) < MAX_DESC_LEN /\
  Z.of_nat (String.length (devicePath r)) < MAX_PATH_LEN.
Proof.
  intros Hr.
  destruct (emitted_is_device_record w st r Hr)
    as (path & idx & ci & desc & _ & ->).
  cbn [deviceDesc devicePath device_record]. unfold snprintf, strncpy. split.
  - pose proof (substring_length_le (Z.to_nat (MAX_DESC_LEN - 1))
                  ("Hub: " +:+ desc +:+ ", Port: " +:+ decimal (portNumber r))).
    unfold MAX_DESC_LEN in *. lia.
  - pose proof (substring_length_le (Z.to_nat (MAX_PATH_LEN - 1)) path).
    unfold MAX_PATH_LEN in *. lia.
Qed.

(** X5. In every stored record the port number lies in 1..255, [isHub] is
    0 or 1 and [speed] lies in -1..3; in particular a stored record is
    never the all-zero record of an unused slot. *)
Theorem stored_fields_in_range w st r :
  r ∈ emitted (snd (EnumerateUSBDevices w st)) ->
  1 <= portNumber r <= 255 /\
  (isHub r = 0 \/ isHub r = 1) /\
  -1 <= speed r <= 3 /\
  r <> zeroed.
Proof.
  intros Hr.
  destruct (emitted_is_device_record w st r Hr)
    as (path & idx & ci & desc & Hp & Heq).
  split; [done|]. split; [|split].
  - rewrite Heq. cbn [isHub device_record].
    destruct (int_of_UCHAR (DeviceIsHub ci) =? 0); [by left | by right].
  - rewrite Heq. cbn [speed device_record]. unfold map_speed.
    repeat (destruct (_ =? _); [lia|]). lia.
  - intros ->. cbn [portNumber zeroed] in Hp. lia.
Qed.

(** *** Where the fields of a record come from *)

(** A stored record, seen from the listing: its hub, the hub's path, the
    reply for its port, and the record as [device_record] builds it. *)
Lemma emitted_record_built w st listing r :
  SetupDiGetClassDevs w = Some listing ->
  Z.of_nat (length listing) <= 2 ^ 31 ->
  r ∈ emitted (snd (EnumerateUSBDevices w st)) ->
  exists hub path connInfo,
    listing !! Z.to_nat (hubIndex r) = Some hub /\
    InterfaceDetail hub = Some path /\
    ConnectionInformation hub (portNumber r) = Some connInfo /\
    1 <= portNumber r <= 255 /\
    r = device_record path (hubIndex r) (portNumber r) connInfo
          (snd (GetDeviceProperty (DeviceDescProperty hub (portNumber r)) "")).
Proof.
  intros Hl Hb Hr.
  rewrite (enumerate_refines_spec w st listing Hl Hb) in Hr.
  apply elem_of_take_1, spec_pass_records_elem in Hr
    as [_ (hub & Hhub & Hr)].
  apply spec_hub_records_elem in Hr
    as (path & n & ci & Hpath & _ & _ & Hp & _ & Hci & _ & Heq).
  exists hub, path, ci. split; [done|]. split; [done|]. split; [done|].
  split; [pose proof (int_of_UCHAR_range n); lia|].
  assert (Hd : snd (GetDeviceProperty
                      (DeviceDescProperty hub (portNumber r)) "")
               = default "" (DeviceDescProperty hub (portNumber r)))
    by (by destruct (DeviceDescProperty hub (portNumber r))).
  rewrite Hd. by rewrite Heq at 1.
Qed.

(** X6. Every stored record is the one built from the replies of its own
    hub and port: vendor and product identifiers are those of the port's
    device descriptor, [isHub] and [speed] come from the same reply, the
    path is the first [MAX_PATH_LEN - 1] characters of the hub's device
    path and the description is composed from the hub's description
    property (empty when the read fails) and the port number. *)
Theorem stored_record_provenance w st listing r :
  SetupDiGetClassDevs w = Some listing ->
  Z.of_nat (length listing) <= 2 ^ 31 ->
  r ∈ emitted (snd (EnumerateUSBDevices w st)) ->
  exists hub path connInfo,
    listing !! Z.to_nat (hubIndex r) = Some hub /\
    InterfaceDetail hub = Some path /\
    GetPortConnectorProperties hub (portNumber r) = Some connInfo /\
    vendorId r = idVendor (DeviceDescriptor connInfo) /\
    productId r = idProduct (DeviceDescriptor connInfo) /\
    isHub r = (if int_of_UCHAR (DeviceIsHub connInfo) =? 0 then 0 else 1) /\
    speed r = map_speed (int_of_UCHAR (Speed connInfo)) /\
    devicePath r = strncpy path (MAX_PATH_LEN - 1) /\
    deviceDesc r =
      snprintf MAX_DESC_LEN
        ("Hub: "
         +:+ snd (GetDeviceProperty (DeviceDescProperty hub (portNumber r)) "")
         +:+ ", Port: " +:+ decimal (portNumber r)).
Proof.
  intros Hl Hb Hr.
  destruct (emitted_record_built w st listing r Hl Hb Hr)
    as (hub & path & ci & Hhub & Hpath & Hci & _ & Heq).
  exists hub, path, ci. split; [done|]. split; [done|]. split; [done|].
  by rewrite Heq at 1 2 3 4 5 6.
Qed.

(** X7. When the traversal finds no more than [MAX_DEVICES] connected
    ports, none is left out: every port in 1..portCount of a hub that
    resolved, opened and answered the node-information query, and whose
    connection query reported connected, has its record in the store. *)
Theorem every_connected_port_recorded w st listing i hub path portCount
    p connInfo :
  SetupDiGetClassDevs w = Some listing ->
  Z.of_nat (length listing) <= 2 ^ 31 ->
  Z.of_nat (length (spec_pass_records listing)) <= MAX_DEVICES ->
  listing !! i = Some hub ->
  InterfaceDetail hub = Some path ->
  OpenDeviceHandle hub path = true ->
  GetHubNodeInfo hub = Some portCount ->
  1 <= p <= int_of_UCHAR portCount ->
  GetPortConnectorProperties hub p = Some connInfo ->
  ConnectionStatus connInfo = DeviceConnected K ->
  exists r,
    r ∈ emitted (snd (EnumerateUSBDevices w st)) /\
    hubIndex r = Z.of_nat i /\
    portNumber r = p /\
    vendorId r = idVendor (DeviceDescriptor connInfo) /\
    productId r = idProduct (DeviceDescriptor connInfo).
Proof.
  intros Hl Hb Hcap Hi Hpath Hopen Hn Hp Hci Hst.
  exists (device_record path (Z.of_nat i) p connInfo
            (default "" (DeviceDescProperty hub p))).
  split; [|done].
  rewrite (enumerate_refines_spec w st listing Hl Hb).
  rewrite take_ge by (unfold cap, MAX_DEVICES in *; lia).
  unfold spec_pass_records. apply spec_records_from_elem.
  exists i, hub. split; [done|]. simpl.
  apply spec_hub_records_elem. by exists path, portCount, connInfo.
Qed.

(** X8. A pass followed by [GetDeviceInfo]: index [j] below the returned
    count hands out the [j]-th connected-port record of the traversal, and
    an index from the returned count on is refused. *)
Theorem enumerate_then_get w st listing :
  SetupDiGetClassDevs w = Some listing ->
  Z.of_nat (length listing) <= 2 ^ 31 ->
  let res := EnumerateUSBDevices w st in
  (forall (j : nat) r buf,
     spec_pass_records listing !! j = Some r ->
     Z.of_nat j < fst res ->
     GetDeviceInfo (Z.of_nat j) (Some buf) (snd res)
     = Some (1, Some r, snd res)) /\
  (forall index outInfo,
     index >= fst res ->
     GetDeviceInfo index outInfo (snd res) = Some (0, outInfo, snd res)).
Proof.
  intros Hl Hb res.
  destruct (enumerate_started w st listing Hl) as (Hok & Hret & _).
  pose proof (enumerate_refines_spec w st listing Hl Hb) as Hem.
  fold res in Hok, Hret, Hem. split.
  - intros j r buf Hj Hlt.
    assert (Hr : g_devices (snd res) !! j = Some r).
    { assert (Hin : emitted (snd res) !! j = Some r).
      { rewrite Hem. apply lookup_take_Some. split; [done|].
        rewrite Hret, (count_is_length _ Hok), Hem, length_take in Hlt. lia. }
      unfold emitted in Hin. apply lookup_take_Some in Hin. tauto. }
    unfold GetDeviceInfo. rewrite <- Hret.
    destruct (Z.ltb_spec (Z.of_nat j) 0); [lia|].
    destruct (Z.geb_spec (Z.of_nat j) (fst res)); [lia|].
    cbn [orb is_NULL]. by rewrite Nat2Z.id, Hr.
  - intros index outInfo Hge. unfold GetDeviceInfo. rewrite <- Hret.
    destruct (Z.ltb_spec index 0); [done|].
    destruct (Z.geb_spec index (fst res)); [done|]. lia.
Qed.

(** X9. The description of a stored record is an initial part of the text
    "Hub: <name>, Port: <port>", and it is the whole text whenever the
    hub's name has at most 239 characters. *)
Theorem stored_description w st listing r hub :
  SetupDiGetClassDevs w = Some listing ->
  Z.of_nat (length listing) <= 2 ^ 31 ->
  r ∈ emitted (snd (EnumerateUSBDevices w st)) ->
  listing !! Z.to_nat (hubIndex r) = Some hub ->
  let name := snd (GetDeviceProperty (DeviceDescProperty hub (portNumber r)) "") in
  let text := "Hub: " +:+ name +:+ ", Port: " +:+ decimal (portNumber r) in
  (exists rest, text = deviceDesc r +:+ rest) /\
  ((String.length name <= 239)%nat -> deviceDesc r = text).
Proof.
  intros Hl Hb Hr Hhub name text.
  destruct (emitted_record_built w st listing r Hl Hb Hr)
    as (hub' & path & ci & Hhub' & _ & _ & Hp & Heq).
  assert (hub' = hub) as -> by congruence.
  assert (Hdesc : deviceDesc r = snprintf MAX_DESC_LEN text)
    by (by rewrite Heq at 1).
  rewrite Hdesc. unfold snprintf.
  split; [apply substring_is_prefix|].
  intros Hname. apply substring_whole.
  pose proof (decimal_port_length _ Hp) as Hdec.
  unfold text. rewrite !string_app_length. simpl.
  unfold MAX_DESC_LEN. lia.
Qed.

(** X15. The records of one hub all carry the same path, and it is the
    hub's device path itself whenever that has at most [MAX_PATH_LEN - 1]
    characters. *)
Theorem records_of_a_hub_share_its_path w st listing r1 r2 :
  SetupDiGetClassDevs w = Some listing ->
  Z.of_nat (length listing) <= 2 ^ 31 ->
  r1 ∈ emitted (snd (EnumerateUSBDevices w st)) ->
  r2 ∈ emitted (snd (EnumerateUSBDevices w st)) ->
  hubIndex r1 = hubIndex r2 ->
  devicePath r1 = devicePath r2 /\
  exists hub path,
    listing !! Z.to_nat (hubIndex r1) = Some hub /\
    InterfaceDetail hub = Some path /\
    (Z.of_nat (String.length path) <= MAX_PATH_LEN - 1 ->
     devicePath r1 = path).
Proof.
  intros Hl Hb Hr1 Hr2 Hidx.
  destruct (emitted_record_built w st listing r1 Hl Hb Hr1)
    as (hub1 & path1 & ci1 & Hhub1 & Hpath1 & _ & _ & Heq1).
  destruct (emitted_record_built w st listing r2 Hl Hb Hr2)
    as (hub2 & path2 & ci2 & Hhub2 & Hpath2 & _ & _ & Heq2).
  rewrite <- Hidx in Hhub2.
  assert (hub2 = hub1) as -> by congruence.
  assert (path2 = path1) as -> by congruence.
  assert (Hp1 : devicePath r1 = strncpy path1 (MAX_PATH_LEN - 1))
    by (by rewrite Heq1 at 1).
  assert (Hp2 : devicePath r2 = strncpy path1 (MAX_PATH_LEN - 1))
    by (by rewrite Heq2 at 1).
  split; [congruence|]. exists hub1, path1. split; [done|]. split; [done|].
  intros Hlen. rewrite Hp1. unfold strncpy. apply substring_whole. lia.
Qed.

(** *** The order of the records *)

Lemma port_range_sorted (n : Z) : StronglySorted Z.lt (port_range n).
Proof.
  unfold port_range. generalize 1.
  induction (Z.to_nat n) as [|k IH] eqn:Hk in n |- *; intros m.
  - rewrite seqZ_nil by lia. constructor.
  - rewrite seqZ_cons by lia. apply StronglySorted_cons. split.
    + apply Forall_forall. intros x Hx%elem_of_seqZ. lia.
    + apply IH. lia.
Qed.

Lemma port_records_sorted hub path hubIdx (ports : list Z) :
  StronglySorted Z.lt ports ->
  StronglySorted record_before
    (flat_map (spec_port_records hub path hubIdx) ports).
Proof.
  induction ports as [|p ports IH]; intros Hs; [constructor|].
  apply StronglySorted_cons in Hs as [Hp Hs]. simpl.
  apply StronglySorted_app. split; [|split].
  - intros r1 r2 Hr1 Hr2.
    apply spec_port_records_elem in Hr1 as (ci1 & _ & _ & ->).
    apply elem_of_flat_map in Hr2 as (q & Hq & Hr2).
    apply spec_port_records_elem in Hr2 as (ci2 & _ & _ & ->).
    rewrite Forall_forall in Hp. specialize (Hp q Hq).
    right. by split.
  - unfold spec_port_records.
    destruct (ConnectionInformation hub p) as [ci|]; [|constructor].
    destruct (ConnectionStatus ci =? DeviceConnected K);
      repeat constructor.
  - by apply IH.
Qed.

Lemma hub_records_sorted hubIdx hub :
  StronglySorted record_before (spec_hub_records None hubIdx hub).
Proof.
  unfold spec_hub_records.
  destruct (InterfaceDetail hub) as [path|]; [|constructor].
  destruct (CreateFileA hub); [|constructor].
  destruct (NodeInformation hub) as [n|]; [|constructor].
  rewrite filter_no_skip by done.
  apply port_records_sorted, port_range_sorted.
Qed.

Lemma spec_records_from_sorted pos listing :
  StronglySorted record_before (spec_records_from None pos listing).
Proof.
  revert pos. induction listing as [|hub rest IH]; intros pos; [constructor|].
  simpl. apply StronglySorted_app. split; [|split].
  - intros r1 r2 Hr1 Hr2.
    apply spec_hub_records_elem in Hr1
      as (? & ? & ? & _ & _ & _ & _ & _ & _ & _ & ->).
    apply spec_records_from_elem in Hr2 as (i & hub' & _ & Hr2).
    apply spec_hub_records_elem in Hr2
      as (? & ? & ? & _ & _ & _ & _ & _ & _ & _ & ->).
    left. cbn [hubIndex device_record]. lia.
  - apply hub_records_sorted.
  - apply IH.
Qed.

Lemma StronglySorted_lookup {A} (R : relation A) (l : list A) :
  StronglySorted R l ->
  forall (i j : nat) x y,
    (i < j)%nat -> l !! i = Some x -> l !! j = Some y -> R x y.
Proof.
  induction 1 as [|a l Hs IH Ha]; intros i j x y Hij Hi Hj; [done|].
  destruct j as [|j]; [lia|]. destruct i as [|i]; simpl in *.
  - injection Hi as <-. rewrite Forall_forall in Ha.
    by eapply Ha, list_elem_of_lookup_2.
  - apply (IH i j); [lia|done|done].
Qed.

(** X10. The store lists records by hub and, within a hub, by port: a
    record at a lower index has a smaller [hubIndex], or the same
    [hubIndex] and a smaller [portNumber].  So no two stored records
    share hub and port. *)
Theorem stored_in_listing_order w st listing (i j : nat) ri rj :
  SetupDiGetClassDevs w = Some listing ->
  Z.of_nat (length listing) <= 2 ^ 31 ->
  (i < j)%nat ->
  emitted (snd (EnumerateUSBDevices w st)) !! i = Some ri ->
  emitted (snd (EnumerateUSBDevices w st)) !! j = Some rj ->
  record_before ri rj /\
  (hubIndex ri, portNumber ri) <> (hubIndex rj, portNumber rj).
Proof.
  intros Hl Hb Hij Hi Hj.
  rewrite (enumerate_refines_spec w st listing Hl Hb) in Hi, Hj.
  apply lookup_take_Some in Hi as [Hi _].
  apply lookup_take_Some in Hj as [Hj _].
  assert (Hlt : record_before ri rj).
  { eapply (StronglySorted_lookup record_before); [|exact Hij|done|done].
    apply spec_records_from_sorted. }
  split; [done|]. intros [= Hh Hp]. unfold record_before in Hlt. lia.
Qed.

(** *** The loop over the hub interfaces *)

Lemma hub_while_short set rest (pos : nat) st fuel :
  Z.of_nat (length set) < 2 ^ 32 ->
  drop pos set = rest ->
  (fuel <= length rest)%nat ->
  hub_while fuel set (Z.of_nat pos) st = None.
Proof.
  intros Hb. revert pos st fuel.
  induction rest as [|hub rest IH]; intros pos st fuel Hd Hf.
  - simpl in Hf. by replace fuel with 0%nat by lia.
  - destruct fuel as [|fuel]; [done|].
    assert (Hhub : set !! pos = Some hub).
    { pose proof (lookup_drop set pos 0) as Hp.
      rewrite Hd, Nat.add_0_r in Hp. done. }
    pose proof (lookup_lt_Some _ _ _ Hhub) as Hlt.
    cbn [hub_while]. unfold SetupDiEnumDeviceInterfaces.
    rewrite Nat2Z.id, Hhub.
    replace (DWORD_incr (Z.of_nat pos)) with (Z.of_nat (S pos)).
    + apply IH; [|simpl in Hf; lia].
      by rewrite (drop_S _ _ _ Hhub) in Hd; injection Hd.
    + unfold DWORD_incr. rewrite Z.mod_small; lia.
Qed.

(** X11. Over a set of fewer than [2^32] hub interfaces the [while] loop
    ends: it calls SetupDiEnumDeviceInterfaces once per member and once
    more, no fewer, and leaves the globals that the pass reports. *)
Theorem hub_while_terminates set st (fuel : nat) :
  Z.of_nat (length set) < 2 ^ 32 ->
  ((length set < fuel)%nat ->
   hub_while fuel set 0 st = Some (hub_loop set 0 st)) /\
  ((fuel <= length set)%nat -> hub_while fuel set 0 st = None).
Proof.
  intros Hb. split.
  - intros Hf.
    assert (Hmore : forall extra f s k g r,
              hub_while f s k g = Some r ->
              hub_while (f + extra) s k g = Some r).
    { intros extra f. induction f as [|f IH]; intros s k g r; [done|].
      simpl. destruct (SetupDiEnumDeviceInterfaces s k); [apply IH|done]. }
    replace fuel with (S (length set) + (fuel - S (length set)))%nat by lia.
    apply Hmore, hub_while_unrolled, Hb.
  - intros Hf. by apply (hub_while_short set set 0).
Qed.

(** *** The calls of a pass *)

Lemma os_run_app (l1 l2 : list OsCall) (r : Resources) :
  os_run (l1 ++ l2) r
  = match os_run l1 r with
    | Some r' => os_run l2 r'
    | None => None
    end.
Proof.
  revert r. induction l1 as [|c l1 IH]; intros r; [done|].
  simpl. destruct (os_step r c); [apply IH | done].
Qed.

Lemma registry_reads_app (l1 l2 : list OsCall) :
  registry_reads (l1 ++ l2) = (registry_reads l1 + registry_reads l2)%nat.
Proof. unfold registry_reads. by rewrite List.filter_app, length_app. Qed.

Lemma queried_ports_app (l1 l2 : list OsCall) :
  queried_ports (l1 ++ l2) = queried_ports l1 ++ queried_ports l2.
Proof. apply omap_app. Qed.

(** One iteration of the port loop: the globals are those of [port_body],
    and the calls added are requests on the open handle and reads through
    the device information set, one read per record stored. *)
Lemma port_body_io_calls hub path k st log port :
  let s' := port_body_io hub path k (st, log) port in
  fst s' = port_body hub path k st port /\
  exists new,
    snd s' = log ++ new /\
    (forall r, infoSet r = true -> hubHandle r = Some k ->
               os_run new r = Some r) /\
    Z.of_nat (registry_reads new) = g_deviceCount (fst s') - g_deviceCount st /\
    queried_ports new = [(k, port)].
Proof.
  unfold port_body_io, port_body. cbv zeta. cbn [fst snd].
  assert (Hconn : forall ok r, infoSet r = true -> hubHandle r = Some k ->
            os_run [Call_ConnectionInformation k port ok] r = Some r).
  { intros ok r _ Hh. simpl. by rewrite Hh, bool_decide_eq_true_2. }
  destruct (GetPortConnectorProperties hub port) as [ci|]; cbn [answered].
  2:{ split; [done|]. eexists. split; [done|]. split; [apply Hconn|].
      split; [unfold registry_reads; simpl; lia | done]. }
  destruct (ConnectionStatus ci =? DeviceConnected K).
  2:{ split; [done|]. eexists. split; [done|]. split; [apply Hconn|].
      split; [unfold registry_reads; simpl; lia | done]. }
  destruct (g_deviceCount st <? MAX_DEVICES).
  2:{ split; [done|]. eexists. split; [done|]. split; [apply Hconn|].
      split; [unfold registry_reads; simpl; lia | done]. }
  cbn [fst snd g_deviceCount]. split; [done|].
  eexists. split; [by rewrite <- app_assoc|]. split; [|split].
  - intros r Hi Hh. simpl. by rewrite Hh, bool_decide_eq_true_2, Hi.
  - unfold registry_reads. simpl. lia.
  - done.
Qed.

Lemma port_loop_io_calls hub path k ports st log :
  let s' := fold_left (port_body_io hub path k) ports (st, log) in
  fst s' = fold_left (port_body hub path k) ports st /\
  exists new,
    snd s' = log ++ new /\
    (forall r, infoSet r = true -> hubHandle r = Some k ->
               os_run new r = Some r) /\
    Z.of_nat (registry_reads new) = g_deviceCount (fst s') - g_deviceCount st /\
    queried_ports new = map (fun p => (k, p)) ports.
Proof.
  revert st log. induction ports as [|port ports IH]; intros st log.
  - simpl. split; [done|]. exists []. rewrite app_nil_r.
    repeat split; try done. unfold registry_reads. simpl. lia.
  - cbn [fold_left].
    destruct (port_body_io_calls hub path k st log port)
      as (Hst & new1 & Hlog & Hrun1 & Hreg1 & Hq1).
    destruct (port_body_io hub path k (st, log) port) as [st1 log1].
    cbn [fst snd] in Hst, Hlog, Hreg1. subst st1 log1.
    destruct (IH (port_body hub path k st port) (log ++ new1))
      as (Hst2 & new2 & Hlog2 & Hrun2 & Hreg2 & Hq2).
    split; [done|]. exists (new1 ++ new2).
    split; [by rewrite Hlog2, app_assoc|]. split; [|split].
    + intros r Hi Hh. rewrite os_run_app, Hrun1 by done. by apply Hrun2.
    + rewrite registry_reads_app, Nat2Z.inj_add, Hreg1, Hreg2, Hst2.
      cbn [fold_left]. lia.
    + by rewrite queried_ports_app, Hq1, Hq2.
Qed.

Ltac os_steps :=
  repeat (progress (simpl; rewrite ?bool_decide_eq_true_2 by done)).

(** The body from line 134 on: the calls added start with the set and the
    block held and end with the block freed. *)
Lemma hub_rest_io_calls k hub st log :
  let s' := hub_rest_io k hub (st, log) in
  fst s' = hub_body k hub st /\
  exists new,
    snd s' = log ++ new /\
    (forall r, infoSet r = true -> heapBlock r = Some k -> hubHandle r = None ->
               os_run new r
               = Some {| infoSet := true; heapBlock := None;
                         hubHandle := None |}) /\
    Z.of_nat (registry_reads new) = g_deviceCount (fst s') - g_deviceCount st /\
    queried_ports new = map (fun p => (k, p)) (ports_of_hub hub).
Proof.
  unfold hub_rest_io, hub_body, ports_of_hub, OpenDeviceHandle, GetHubNodeInfo.
  cbv zeta. cbn [fst snd].
  destruct (InterfaceDetail hub) as [path|]; cbn [answered fst snd].
  2:{ split; [done|].
      exists [Call_InterfaceDetail k false; Call_free k].
      split; [by rewrite <- app_assoc|].
      split; [|split; [unfold registry_reads; simpl; lia | done]].
      intros [i hb hh] Hi Hb Hh. simpl in *. subst. by os_steps. }
  destruct (CreateFileA hub); cbn [fst snd].
  2:{ split; [done|].
      exists [Call_InterfaceDetail k true; Call_CreateFileA k false;
              Call_free k].
      split; [by rewrite <- !app_assoc|].
      split; [|split; [unfold registry_reads; simpl; lia | done]].
      intros [i hb hh] Hi Hb Hh. simpl in *. subst. by os_steps. }
  destruct (NodeInformation hub) as [n|]; cbn [answered fst snd].
  2:{ split; [done|].
      exists [Call_InterfaceDetail k true; Call_CreateFileA k true;
              Call_NodeInformation k false; Call_CloseHandle k;
              Call_free k].
      split; [by rewrite <- !app_assoc|].
      split; [|split; [unfold registry_reads; simpl; lia | done]].
      intros [i hb hh] Hi Hb Hh. simpl in *. subst. by os_steps. }
  match goal with
  | |- context [fold_left _ _ (st, ?l)] =>
      destruct (port_loop_io_calls hub path k
                  (port_range (int_of_UCHAR n)) st l)
        as (Hst & new & Hlog & Hrun & Hreg & Hq)
  end.
  destruct (fold_left (port_body_io hub path k) _ _) as [st1 log1].
  cbn [fst snd] in *. subst st1 log1. split; [done|].
  exists ([Call_InterfaceDetail k true; Call_CreateFileA k true;
           Call_NodeInformation k true]
          ++ new ++ [Call_CloseHandle k; Call_free k]).
  split; [by rewrite <- !app_assoc|]. split; [|split].
  - intros [i hb hh] Hi Hb Hh. simpl in *. subst. os_steps.
    rewrite os_run_app, Hrun by done. by os_steps.
  - rewrite !registry_reads_app, !Nat2Z.inj_add, Hreg.
    unfold registry_reads. simpl. lia.
  - rewrite !queried_ports_app, Hq. simpl. by rewrite app_nil_r.
Qed.

(** One hub: the calls added start and end with nothing but the device
    information set held. *)
Lemma hub_body_io_calls k hub st log :
  let s' := hub_body_io k hub (st, log) in
  fst s' = hub_body k hub st /\
  exists new,
    snd s' = log ++ new /\
    (forall r, infoSet r = true -> heapBlock r = None -> hubHandle r = None ->
               os_run new r = Some r) /\
    Z.of_nat (registry_reads new) = g_deviceCount (fst s') - g_deviceCount st /\
    queried_ports new = map (fun p => (k, p)) (ports_of_hub hub).
Proof.
  unfold hub_body_io. cbn [fst snd].
  destruct (hub_rest_io_calls k hub st
              (log ++ [Call_InterfaceDetailSize k; Call_malloc k true]))
    as (Hst & new & Hlog & Hrun & Hreg & Hq).
  destruct (hub_rest_io k hub _) as [st1 log1].
  cbn [fst snd] in *. subst st1 log1. split; [done|].
  exists ([Call_InterfaceDetailSize k; Call_malloc k true] ++ new).
  split; [by rewrite <- app_assoc|]. split; [|split].
  - intros [i hb hh] Hi Hb Hh. simpl in *. subst. os_steps.
    by rewrite Hrun.
  - rewrite registry_reads_app, Nat2Z.inj_add, Hreg.
    unfold registry_reads. simpl. lia.
  - by rewrite queried_ports_app, Hq.
Qed.

Lemma hub_loop_io_calls listing k st log :
  let s' := hub_loop_io listing k (st, log) in
  fst s' = hub_loop listing k st /\
  exists new,
    snd s' = log ++ new /\
    (forall r, infoSet r = true -> heapBlock r = None -> hubHandle r = None ->
               os_run new r = Some r) /\
    Z.of_nat (registry_reads new) = g_deviceCount (fst s') - g_deviceCount st.
Proof.
  revert k st log. induction listing as [|hub rest IH]; intros k st log.
  - simpl. split; [done|]. eexists. split; [done|]. split.
    + intros r Hi _ _. simpl. by rewrite Hi.
    + unfold registry_reads. simpl. lia.
  - cbn [hub_loop_io hub_loop fst snd].
    destruct (hub_body_io_calls k hub st
                (log ++ [Call_SetupDiEnumDeviceInterfaces k true]))
      as (Hst & new1 & Hlog & Hrun1 & Hreg1 & _).
    destruct (hub_body_io k hub _) as [st1 log1].
    cbn [fst snd] in Hst, Hlog, Hreg1. subst st1 log1.
    destruct (IH (DWORD_incr k) (hub_body k hub st)
                ((log ++ [Call_SetupDiEnumDeviceInterfaces k true]) ++ new1))
      as (Hst2 & new2 & Hlog2 & Hrun2 & Hreg2).
    split; [done|].
    exists ([Call_SetupDiEnumDeviceInterfaces k true] ++ new1 ++ new2).
    split; [by rewrite Hlog2, <- !app_assoc|]. split.
    + intros r Hi Hb Hh. rewrite os_run_app. simpl. rewrite Hi.
      rewrite os_run_app, Hrun1 by done. by apply Hrun2.
    + rewrite !registry_reads_app, !Nat2Z.inj_add, Hreg1, Hreg2, Hst2.
      unfold registry_reads. simpl. lia.
Qed.

Lemma hub_loop_io_queries listing (pos : nat) st log new :
  Z.of_nat pos + Z.of_nat (length listing) < 2 ^ 32 ->
  snd (hub_loop_io listing (Z.of_nat pos) (st, log)) = log ++ new ->
  queried_ports new = ports_from pos listing.
Proof.
  revert pos st log new.
  induction listing as [|hub rest IH]; intros pos st log new Hb Hnew.
  - simpl in Hnew. apply app_inv_head in Hnew. by subst new.
  - cbn [hub_loop_io fst snd length] in Hnew, Hb.
    destruct (hub_body_io_calls (Z.of_nat pos) hub st
                (log ++ [Call_SetupDiEnumDeviceInterfaces (Z.of_nat pos) true]))
      as (_ & new1 & Hlog & _ & _ & Hq1).
    destruct (hub_body_io (Z.of_nat pos) hub _) as [st1 log1].
    cbn [snd] in Hlog. subst log1.
    replace (DWORD_incr (Z.of_nat pos)) with (Z.of_nat (S pos)) in Hnew
      by (unfold DWORD_incr; rewrite Z.mod_small; lia).
    destruct (hub_loop_io_calls rest (Z.of_nat (S pos)) st1
                ((log ++ [Call_SetupDiEnumDeviceInterfaces (Z.of_nat pos) true])
                 ++ new1)) as (_ & new2 & Hlog2 & _).
    pose proof Hlog2 as Hq2. apply IH in Hq2; [|lia].
    rewrite Hlog2, <- !app_assoc in Hnew. apply app_inv_head in Hnew.
    subst new. rewrite !queried_ports_app, Hq1, Hq2. done.
Qed.

(** A pass in which every [malloc] returns a block: the recorded pass
    gives the value and the globals of [EnumerateUSBDevices]. *)
Lemma enumerate_io_erases w st :
  fst (EnumerateUSBDevices_io w st) = EnumerateUSBDevices w st.
Proof.
  unfold EnumerateUSBDevices_io, EnumerateUSBDevices. cbv zeta.
  destruct (SetupDiGetClassDevs w) as [listing|]; [|done].
  match goal with
  | |- context [hub_loop_io listing 0 (?g, ?l)] =>
      destruct (hub_loop_io_calls listing 0 g l) as (Hst & _)
  end.
  destruct (hub_loop_io listing 0 _) as [st1 log1].
  cbn [fst snd] in *. by subst st1.
Qed.

(** Its calls use what is held in order and leave nothing held. *)
Lemma enumerate_io_clean w st :
  os_run (snd (EnumerateUSBDevices_io w st)) nothing_held = Some nothing_held.
Proof.
  unfold EnumerateUSBDevices_io. cbv zeta.
  destruct (SetupDiGetClassDevs w) as [listing|]; [|done].
  match goal with
  | |- context [hub_loop_io listing 0 (?g, ?l)] =>
      destruct (hub_loop_io_calls listing 0 g l)
        as (_ & new & Hlog & Hrun & _)
  end.
  destruct (hub_loop_io listing 0 _) as [st1 log1].
  cbn [fst snd] in *. subst log1.
  rewrite <- app_assoc. simpl. rewrite os_run_app, Hrun by done. done.
Qed.

(** Every port of every working hub is queried, once and in order. *)
Lemma enumerate_io_queries w st listing :
  SetupDiGetClassDevs w = Some listing ->
  Z.of_nat (length listing) < 2 ^ 32 ->
  queried_ports (snd (EnumerateUSBDevices_io w st)) = ports_from 0 listing.
Proof.
  intros Hl Hb. unfold EnumerateUSBDevices_io. rewrite Hl. cbv zeta.
  match goal with
  | |- context [hub_loop_io listing 0 (?g, ?l)] =>
      destruct (hub_loop_io_calls listing 0 g l)
        as (_ & new & Hlog & _)
  end.
  pose proof Hlog as Hq. apply (hub_loop_io_queries listing 0) in Hq;
    [|simpl; lia].
  cbn [snd]. rewrite Hlog, !queried_ports_app, Hq. simpl.
  by rewrite app_nil_r.
Qed.

(** X13. A pass reads the hub's description from the registry once for
    each record it stores and at no other time: the number of such reads
    equals the count the pass leaves. *)
Theorem one_description_read_per_record w st :
  let res := EnumerateUSBDevices_io w st in
  Z.of_nat (registry_reads (snd res)) = GetDeviceCount (snd (fst res)).
Proof.
  unfold EnumerateUSBDevices_io, GetDeviceCount. cbv zeta.
  destruct (SetupDiGetClassDevs w) as [listing|]; [|done].
  match goal with
  | |- context [hub_loop_io listing 0 (?g, ?l)] =>
      destruct (hub_loop_io_calls listing 0 g l)
        as (_ & new & Hlog & _ & Hreg)
  end.
  destruct (hub_loop_io listing 0 _) as [st1 log1].
  cbn [fst snd g_deviceCount] in *. subst log1.
  rewrite !registry_reads_app, !Nat2Z.inj_add, Hreg.
  unfold registry_reads. simpl. lia.
Qed.

(** X14. A pass over fewer than [2^32] hubs queries the connection of
    every port 1..portCount of every hub that resolved, opened and
    answered the node-information request, once each, hub by hub in port
    order, and queries no other port, whether or not the store is full. *)
Theorem every_port_queried_once w st listing :
  SetupDiGetClassDevs w = Some listing ->
  Z.of_nat (length listing) < 2 ^ 32 ->
  let log := snd (EnumerateUSBDevices_io w st) in
  queried_ports log = ports_from 0 listing /\
  NoDup (queried_ports log).
Proof.
  intros Hl Hb log.
  assert (Hq : queried_ports log = ports_from 0 listing).
  { unfold log, EnumerateUSBDevices_io. rewrite Hl. cbv zeta.
    match goal with
    | |- context [hub_loop_io listing 0 (?g, ?l)] =>
        destruct (hub_loop_io_calls listing 0 g l)
          as (_ & new & Hlog & _)
    end.
    pose proof Hlog as Hq. apply (hub_loop_io_queries listing 0) in Hq;
      [|simpl; lia].
    cbn [snd]. rewrite Hlog, !queried_ports_app, Hq. simpl.
    by rewrite app_nil_r. }
  split; [done|]. rewrite Hq. clear.
  assert (Hfrom : forall pos l hp,
            hp ∈ ports_from pos l -> Z.of_nat pos <= fst hp).
  { intros pos l. revert pos. induction l as [|hub rest IH]; intros pos hp.
    - by rewrite elem_of_nil.
    - simpl. rewrite elem_of_app, list_elem_of_fmap.
      intros [(p & -> & _)|Hr]; [simpl; lia|].
      apply IH in Hr. lia. }
  generalize 0%nat.
  induction listing as [|hub rest IH]; intros pos; [constructor|].
  simpl. apply NoDup_app. split; [|split; [|apply IH]].
  - apply (NoDup_fmap_2 _). unfold ports_of_hub.
    destruct (InterfaceDetail hub); [|constructor].
    destruct (CreateFileA hub); [|constructor].
    destruct (NodeInformation hub); [|constructor].
    apply NoDup_seqZ.
  - intros hp (p & -> & _)%list_elem_of_fmap Hin.
    apply Hfrom in Hin. simpl in Hin. lia.
Qed.

(** *** The pass with lines 126-132 in full *)

(** A loop that ends without fault has made the calls, and leaves the
    globals, of the loop in which every [malloc] returns a block. *)
Lemma hub_loop_run_returns heap listing k size st log st' :
  fst (hub_loop_run heap listing k size (st, log)) = inr st' ->
  hub_loop_run heap listing k size (st, log)
  = (inr (fst (hub_loop_io listing k (st, log))),
     snd (hub_loop_io listing k (st, log))).
Proof.
  revert k size st log.
  induction listing as [|hub rest IH]; intros k size st log; [done|].
  cbn [hub_loop_run hub_loop_io fst snd]. unfold hub_alloc_io, hub_body_io.
  cbv zeta. cbn [fst snd].
  destruct (match SizingCall (heap k) with Some n => Some n | None => size end)
    as [n|]; cbn [fst snd]; [|done].
  destruct (MallocBlock (heap k)); cbn [fst snd]; [|done].
  destruct (n <? sizeof_cbSize); cbn [fst snd]; [done|].
  rewrite <- (app_assoc _ [Call_InterfaceDetailSize k] [Call_malloc k true]).
  change ([Call_InterfaceDetailSize k] ++ [Call_malloc k true])
    with [Call_InterfaceDetailSize k; Call_malloc k true].
  destruct (hub_rest_io k hub _) as [st1 log1]. apply IH.
Qed.

(** On a heap that serves, the loop ends without fault. *)
Lemma hub_loop_run_serves heap listing k size s :
  heap_serves heap ->
  fst (hub_loop_run heap listing k size s)
  = inr (fst (hub_loop_io listing k s)).
Proof.
  intros Hs. revert k size s.
  induction listing as [|hub rest IH]; intros k size s; [done|].
  cbn [hub_loop_run hub_loop_io fst snd]. unfold hub_alloc_io, hub_body_io.
  cbv zeta. destruct (Hs k) as (Hm & n & Hn & Hsz). rewrite Hn, Hm.
  destruct (Z.ltb_spec n sizeof_cbSize); [lia|]. cbn [fst snd].
  rewrite <- (app_assoc _ [Call_InterfaceDetailSize k] [Call_malloc k true]).
  simpl app at 2 4. apply IH.
Qed.

(** A loop ended by a fault has misused nothing up to there, and the
    device information set is still held. *)
Lemma hub_loop_run_faults heap listing k size st log fault :
  fst (hub_loop_run heap listing k size (st, log)) = inl fault ->
  exists new,
    snd (hub_loop_run heap listing k size (st, log)) = log ++ new /\
    forall r, infoSet r = true -> heapBlock r = None -> hubHandle r = None ->
      exists r', os_run new r = Some r' /\
                 infoSet r' = true /\ hubHandle r' = None.
Proof.
  revert k size st log.
  induction listing as [|hub rest IH]; intros k size st log; [done|].
  cbn [hub_loop_run fst snd]. unfold hub_alloc_io. cbv zeta. cbn [fst snd].
  destruct (match SizingCall (heap k) with Some n => Some n | None => size end)
    as [n|]; cbn [fst snd].
  2:{ intros _.
      exists [Call_SetupDiEnumDeviceInterfaces k true;
              Call_InterfaceDetailSize k].
      split; [by rewrite <- app_assoc|].
      intros [i hb hh] Hi Hb Hh. simpl in *. subst. by eexists. }
  destruct (MallocBlock (heap k)); cbn [fst snd].
  2:{ intros _.
      exists [Call_SetupDiEnumDeviceInterfaces k true;
              Call_InterfaceDetailSize k; Call_malloc k false].
      split; [by rewrite <- !app_assoc|].
      intros [i hb hh] Hi Hb Hh. simpl in *. subst. by eexists. }
  destruct (n <? sizeof_cbSize); cbn [fst snd].
  { intros _.
    exists [Call_SetupDiEnumDeviceInterfaces k true;
            Call_InterfaceDetailSize k; Call_malloc k true].
    split; [by rewrite <- !app_assoc|].
    intros [i hb hh] Hi Hb Hh. simpl in *. subst. by eexists. }
  match goal with
  | |- context [hub_rest_io k hub (st, ?l)] =>
      destruct (hub_rest_io_calls k hub st l)
        as (_ & new1 & Hlog1 & Hrun1 & _)
  end.
  destruct (hub_rest_io k hub _) as [st1 log1]. cbn [snd] in Hlog1.
  subst log1. intros Hf.
  destruct (IH _ _ _ _ Hf) as (new2 & Hlog2 & Hrun2).
  exists ([Call_SetupDiEnumDeviceInterfaces k true;
           Call_InterfaceDetailSize k; Call_malloc k true]
          ++ new1 ++ new2).
  split; [by rewrite Hlog2, <- !app_assoc|].
  intros [i hb hh] Hi Hb Hh. simpl in *. subst. os_steps.
  rewrite os_run_app, Hrun1 by done. by apply Hrun2.
Qed.

(** A pass that returns has returned the value, left the globals and made
    the calls of the pass in which every [malloc] returns a block. *)
Lemma run_returns w heap st res :
  fst (EnumerateUSBDevices_run w heap st) = inr res ->
  res = EnumerateUSBDevices w st /\
  snd (EnumerateUSBDevices_run w heap st)
  = snd (EnumerateUSBDevices_io w st).
Proof.
  rewrite <- enumerate_io_erases.
  unfold EnumerateUSBDevices_run, EnumerateUSBDevices_io. cbv zeta.
  destruct (SetupDiGetClassDevs w) as [listing|].
  2:{ cbn [fst snd]. by intros [= <-]. }
  destruct (fst (hub_loop_run heap listing 0 None _)) as [f|st1] eqn:Hrun;
    cbn [fst snd]; [done|].
  rewrite (hub_loop_run_returns _ _ _ _ _ _ _ Hrun) in Hrun |- *.
  cbn [fst snd] in *. injection Hrun as <-. by intros [= <-].
Qed.

(** On a heap that serves, the pass returns. *)
Lemma run_serves w heap st :
  heap_serves heap ->
  fst (EnumerateUSBDevices_run w heap st) = inr (EnumerateUSBDevices w st).
Proof.
  intros Hs. rewrite <- enumerate_io_erases.
  unfold EnumerateUSBDevices_run, EnumerateUSBDevices_io. cbv zeta.
  destruct (SetupDiGetClassDevs w) as [listing|]; [|done].
  by rewrite (hub_loop_run_serves heap listing 0 None _ Hs).
Qed.

(** X12. Every pass that returns has used what the process holds in order
    and released it: requests went to the handle of the hub that was open,
    every handle opened was closed once, every block allocated was freed
    once, the device information set was destroyed if it was obtained, and
    nothing is held afterwards.  A pass ended by a fault of lines 127-132
    has misused nothing before, but the device information set is still
    held.  On a heap that serves every hub the pass returns. *)
Theorem pass_releases_what_it_acquires w heap st :
  let run := EnumerateUSBDevices_run w heap st in
  (forall res,
     fst run = inr res ->
     res = EnumerateUSBDevices w st /\
     os_run (snd run) nothing_held = Some nothing_held) /\
  (forall fault,
     fst run = inl fault ->
     exists r,
       os_run (snd run) nothing_held = Some r /\
       infoSet r = true /\ hubHandle r = None) /\
  (heap_serves heap -> fst run = inr (EnumerateUSBDevices w st)).
Proof.
  intros run. split; [|split].
  - intros res Hres. destruct (run_returns w heap st res Hres) as [-> Hlog].
    split; [done|]. unfold run. rewrite Hlog. apply enumerate_io_clean.
  - intros fault. unfold run, EnumerateUSBDevices_run. cbv zeta.
    destruct (SetupDiGetClassDevs w) as [listing|]; [|done].
    destruct (fst (hub_loop_run heap listing 0 None _)) as [f|st1] eqn:Hrun;
      cbn [fst snd]; [|done].
    intros _.
    destruct (hub_loop_run_faults _ _ _ _ _ _ _ Hrun) as (new & Hlog & Hnew).
    rewrite Hlog. simpl.
    destruct (Hnew {| infoSet := true; heapBlock := None; hubHandle := None |})
      as (r' & Hr' & Hi & Hh); try done.
    by exists r'.
  - apply run_serves.
Qed.

(** C2. After a pass, [GetDeviceCount] returns the number of records
    accepted into the store during the pass, which is the number of
    connected-port records of the traversal capped at [MAX_DEVICES] = 256;
    [EnumerateUSBDevices] has returned that same number whenever the
    listing of hubs started.  The store holds the first 256 records of the
    traversal: the later ones are dropped.  And the traversal goes on over
    all remaining ports and hubs whatever the store holds: a pass that
    returns has queried every port of every hub that resolved, opened and
    answered, once each and in order. *)
Theorem enumerate_count_capped w st :
  let res := EnumerateUSBDevices w st in
  let listing := listed_hubs w in
  GetDeviceCount (snd res) = Z.of_nat (length (emitted (snd res))) /\
  GetDeviceCount (snd res)
  = Z.min MAX_DEVICES (Z.of_nat (length (spec_pass_records listing))) /\
  MAX_DEVICES = 256 /\
  (SetupDiGetClassDevs w <> None -> fst res = GetDeviceCount (snd res)) /\
  (Z.of_nat (length listing) <= 2 ^ 31 ->
   emitted (snd res) = take cap (spec_pass_records listing)) /\
  (forall heap res',
     fst (EnumerateUSBDevices_run w heap st) = inr res' ->
     res' = res /\
     (Z.of_nat (length listing) < 2 ^ 32 ->
      queried_ports (snd (EnumerateUSBDevices_run w heap st))
      = ports_from 0 listing)).
Proof.
  intros res listing.
  assert (Hrun : forall heap res',
     fst (EnumerateUSBDevices_run w heap st) = inr res' ->
     res' = res /\
     (Z.of_nat (length listing) < 2 ^ 32 ->
      queried_ports (snd (EnumerateUSBDevices_run w heap st))
      = ports_from 0 listing)).
  { intros heap res' Hret.
    destruct (run_returns w heap st res' Hret) as [-> Hlog].
    split; [done|]. intros Hb. rewrite Hlog.
    unfold listing, listed_hubs in *.
    destruct (SetupDiGetClassDevs w) as [l|] eqn:Hl; simpl in *.
    - by apply enumerate_io_queries.
    - unfold EnumerateUSBDevices_io. by rewrite Hl. }
  unfold GetDeviceCount, listed_hubs in *.
  destruct (SetupDiGetClassDevs w) as [l|] eqn:Hl; simpl in listing;
    subst listing.
  - destruct (enumerate_started w st l Hl) as (Hok & Hret & Hem).
    fold res in Hok, Hret, Hem.
    pose proof (count_is_length _ Hok) as Hcount.
    split; [done|]. split; [|split; [done|split; [done|split; [|done]]]].
    + rewrite Hcount, Hem, length_take.
      rewrite (loop_records_length l 0 0%nat).
      fold (spec_pass_records l). unfold cap, MAX_DEVICES. lia.
    + intros Hb. by apply enumerate_refines_spec.
  - unfold res in *. rewrite (enumerate_fatal w st Hl) in *. cbn [fst snd].
    split; [done|]. split; [done|]. split; [done|]. split; [done|].
    split; done.
Qed.

(** Whenever the pass returns, the value is -1 exactly when the listing
    could not start, and a count between 0 and [MAX_DEVICES] otherwise. *)
Lemma returned_value w heap st ret st' :
  fst (EnumerateUSBDevices_run w heap st) = inr (ret, st') ->
  (ret = -1 <-> SetupDiGetClassDevs w = None) /\
  (ret < 0 <-> SetupDiGetClassDevs w = None) /\
  (SetupDiGetClassDevs w <> None -> 0 <= ret <= MAX_DEVICES).
Proof.
  intros Hret. destruct (run_returns w heap st _ Hret) as [Heq _].
  pose proof (enumerate_negative_iff_listing_fails w st) as H.
  rewrite <- Heq in H. exact H.
Qed.

(** C3. With the hub listing started, the pass can still end without
    returning: when [malloc] gives NULL for the interface detail of the
    first hub, line 132 writes [cbSize] through it.  The pass has then made
    four calls and the device information set is never destroyed.  So a
    failed listing is not the only condition under which the pass aborts;
    the result of [malloc] is the one the loop does not test. *)
Theorem pass_dies_on_null_block w heap st hub rest n :
  SetupDiGetClassDevs w = Some (hub :: rest) ->
  SizingCall (heap 0) = Some n ->
  MallocBlock (heap 0) = false ->
  EnumerateUSBDevices_run w heap st
  = (inl NullWrite,
     [Call_SetupDiGetClassDevs true;
      Call_SetupDiEnumDeviceInterfaces 0 true;
      Call_InterfaceDetailSize 0;
      Call_malloc 0 false]).
Proof.
  intros Hl Hn Hm. unfold EnumerateUSBDevices_run. rewrite Hl. cbv zeta.
  cbn [hub_loop_run fst snd]. unfold hub_alloc_io. cbv zeta.
  by rewrite Hn, Hm.
Qed.

End UsbMapper.

(** ** The scenarios of the specification, evaluated *)

(** Scenario A: no hub is listed. *)
Example scenario_A :
  let res := EnumerateUSBDevices winsdk platform_A initial in
  fst res = 0 /\ GetDeviceCount (snd res) = 0.
Proof. by vm_compute. Qed.

(** Scenario B: ports 1 and 3 of a four-port hub are connected. *)
Example scenario_B :
  let res := EnumerateUSBDevices winsdk platform_B initial in
  fst res = 2 /\
  map (fun r => (hubIndex r, portNumber r, speed r, vendorId r))
    (emitted (snd res))
  = [(0, 1, 2, 0x1234); (0, 3, 1, 0xAAAA)].
Proof. by vm_compute. Qed.

(** Scenario C: the hub at position 1 cannot be opened. *)
Example scenario_C :
  let res := EnumerateUSBDevices winsdk platform_C initial in
  fst res = 3 /\
  map (fun r => (hubIndex r, portNumber r, speed r, deviceDesc r))
    (emitted (snd res))
  = [(0, 1, 2, "Hub: USB Root Hub, Port: 1");
     (0, 3, 1, "Hub: USB Root Hub, Port: 3");
     (2, 2, -1, "Hub: , Port: 2")].
Proof. by vm_compute. Qed.

(** Scenario D: 510 connected ports; the store keeps the first 256, the
    last of which is port 1 of the second hub. *)
Example scenario_D :
  let res := EnumerateUSBDevices winsdk platform_D initial in
  fst res = 256 /\
  GetDeviceCount (snd res) = 256 /\
  (hubIndex <$> last (emitted (snd res))) = Some 1 /\
  (portNumber <$> last (emitted (snd res))) = Some 1.
Proof. by vm_compute. Qed.

(** A fatal pass after a successful one. *)
Example scenario_fatal :
  let st := snd (EnumerateUSBDevices winsdk platform_B initial) in
  let res := EnumerateUSBDevices winsdk platform_down st in
  fst res = -1 /\ GetDeviceCount (snd res) = 0 /\
  GetDeviceInfo 0 (Some zeroed) (snd res) = Some (0, Some zeroed, snd res).
Proof. by vm_compute. Qed.

(** ** The theorems at concrete passes *)

Lemma emitted_records_in_range_witness :
  let listing := [hub_B; hub_closed; hub_nameless] in
  let r := device_record winsdk "hub#n" 2 2 (device 0x0951 0x1666 x07) "" in
  0 <= hubIndex r <= Z.of_nat (length listing) - 1 /\
  exists hub portCount connInfo,
    listing !! Z.to_nat (hubIndex r) = Some hub /\
    GetHubNodeInfo hub = Some portCount /\
    1 <= portNumber r <= int_of_UCHAR portCount /\
    GetPortConnectorProperties hub (portNumber r) = Some connInfo /\
    ConnectionStatus connInfo = DeviceConnected winsdk.
Proof.
  intros listing r.
  apply (emitted_records_in_range winsdk platform_C initial listing r).
  - reflexivity.
  - simpl. lia.
  - apply (list_elem_of_lookup_2 _ 2%nat). vm_compute. reflexivity.
Defined.

Lemma enumerate_count_capped_witness :
  fst (EnumerateUSBDevices winsdk platform_D initial) = 256 /\
  length (emitted (snd (EnumerateUSBDevices winsdk platform_D initial)))
  = 256%nat /\
  length (queried_ports
            (snd (EnumerateUSBDevices_run winsdk platform_D heap_plentiful
                    initial)))
  = 510%nat.
Proof.
  destruct (enumerate_count_capped winsdk platform_D initial)
    as (Hlen & Hmin & _ & Hret & _ & Hrun).
  cbv zeta in Hlen, Hmin, Hret, Hrun.
  assert (Hc : GetDeviceCount
                 (snd (EnumerateUSBDevices winsdk platform_D initial)) = 256).
  { rewrite Hmin. vm_compute. reflexivity. }
  split; [|split].
  - rewrite Hret; [exact Hc | discriminate].
  - rewrite Hc in Hlen. lia.
  - destruct (Hrun heap_plentiful
                (EnumerateUSBDevices winsdk platform_D initial)) as [_ Hq].
    + vm_compute. reflexivity.
    + rewrite Hq; [vm_compute; reflexivity | vm_compute; reflexivity].
Defined.

Lemma pass_dies_on_null_block_witness :
  SetupDiGetClassDevs platform_B <> None /\
  EnumerateUSBDevices_run winsdk platform_B (heap_null_at 0) initial
  = (inl NullWrite,
     [Call_SetupDiGetClassDevs true;
      Call_SetupDiEnumDeviceInterfaces 0 true;
      Call_InterfaceDetailSize 0;
      Call_malloc 0 false]).
Proof.
  split; [discriminate|].
  apply (pass_dies_on_null_block winsdk platform_B (heap_null_at 0) initial
           hub_B [] 64); reflexivity.
Defined.

Lemma map_speed_table_witness :
  distinct_speeds winsdk /\
  map_speed winsdk 0 = 0 /\ map_speed winsdk 1 = 1 /\
  map_speed winsdk 2 = 2 /\ map_speed winsdk 3 = 3 /\
  map_speed winsdk 7 = -1.
Proof.
  assert (Hd : distinct_speeds winsdk).
  { unfold distinct_speeds. simpl.
    apply (bool_decide_unpack (NoDup [0; 1; 2; 3])). vm_compute. exact I. }
  destruct (map_speed_table winsdk Hd) as (H0 & H1 & H2 & H3 & Hother & _).
  split; [exact Hd|]. split; [exact H0|]. split; [exact H1|].
  split; [exact H2|]. split; [exact H3|].
  apply Hother; simpl; lia.
Defined.

Lemma get_device_info_by_index_witness :
  let st := snd (EnumerateUSBDevices winsdk platform_B initial) in
  store_ok st /\
  GetDeviceInfo 2 (Some zeroed) st = Some (0, Some zeroed, st) /\
  exists r,
    emitted st !! 1%nat = Some r /\
    GetDeviceInfo 1 (Some zeroed) st = Some (1, Some r, st).
Proof.
  intros st.
  assert (Hok : store_ok st).
  { split; [vm_compute; split; discriminate | vm_compute; reflexivity]. }
  destruct (get_device_info_by_index st 2 Hok) as [Hout _].
  destruct (get_device_info_by_index st 1 Hok) as [_ Hin].
  split; [exact Hok|]. split.
  - apply Hout. right. vm_compute. discriminate.
  - destruct Hin as (r & Hr & _ & Hget).
    { vm_compute. split; discriminate. }
    exists r. split; [exact Hr | apply Hget].
Defined.

Lemma hub_index_is_listing_position_witness :
  hub_fails hub_closed /\
  Forall (fun r => hubIndex r <> 1)
    (emitted (snd (EnumerateUSBDevices winsdk platform_C initial))).
Proof.
  split; [right; left; reflexivity|]. apply Forall_forall.
  destruct (hub_index_is_listing_position winsdk platform_C initial
              [hub_B; hub_closed; hub_nameless]) as (_ & _ & Hfail).
  - reflexivity.
  - simpl. lia.
  - destruct (Hfail 1%nat hub_closed) as (_ & _ & Hno).
    + reflexivity.
    + right. left. reflexivity.
    + exact Hno.
Defined.

Lemma silent_port_contributes_nothing_witness :
  port_silent winsdk hub_nameless 1 /\
  emitted (snd (EnumerateUSBDevices winsdk platform_C initial))
  = take cap
      (spec_pass_records_without winsdk 2 1 [hub_B; hub_closed; hub_nameless]).
Proof.
  assert (Hs : port_silent winsdk hub_nameless 1) by (vm_compute; exact I).
  split; [exact Hs|].
  apply (silent_port_contributes_nothing winsdk platform_C initial
           [hub_B; hub_closed; hub_nameless] 2%nat hub_nameless 1).
  - reflexivity.
  - simpl. lia.
  - reflexivity.
  - exact Hs.
Defined.

Lemma description_failure_keeps_record_witness :
  exists k r,
    spec_pass_records winsdk [hub_B; hub_closed; hub_nameless] !! k = Some r /\
    hubIndex r = 2 /\
    portNumber r = 2 /\
    deviceDesc r = "Hub: , Port: 2" /\
    ((k < cap)%nat ->
     emitted (snd (EnumerateUSBDevices winsdk platform_C initial)) !! k
     = Some r).
Proof.
  destruct (description_failure_keeps_record winsdk platform_C initial
              [hub_B; hub_closed; hub_nameless] 2%nat hub_nameless
              "hub#n" x02 2 (device 0x0951 0x1666 x07))
    as (k & r & digits & Hk & Hh & Hp & Hd & Hnum & Hem).
  - reflexivity.
  - simpl. lia.
  - reflexivity.
  - reflexivity.
  - reflexivity.
  - reflexivity.
  - vm_compute. split; discriminate.
  - reflexivity.
  - reflexivity.
  - reflexivity.
  - exists k, r. split; [exact Hk|]. split; [exact Hh|]. split; [exact Hp|].
    split; [|exact Hem].
    destruct k as [|[|[|k]]]; vm_compute in Hk;
      try discriminate Hk; injection Hk as <-;
      try discriminate Hh; reflexivity.
Defined.

Lemma fatal_pass_clears_store_witness :
  let st := snd (EnumerateUSBDevices winsdk platform_B initial) in
  let res := EnumerateUSBDevices winsdk platform_down st in
  SetupDiGetClassDevs platform_down = None /\
  fst res = -1 /\
  GetDeviceCount (snd res) = 0 /\
  emitted (snd res) = [].
Proof.
  intros st res.
  destruct (fatal_pass_clears_store winsdk platform_down st eq_refl)
    as (Hret & Hcount & Hem & _).
  split; [reflexivity|]. split; [exact Hret|]. split; [exact Hcount|].
  exact Hem.
Defined.

Lemma get_device_info_failure_is_silent_witness :
  let st := snd (EnumerateUSBDevices winsdk platform_B initial) in
  GetDeviceInfo 0 None st = Some (0, None, st) /\
  GetDeviceInfo (-1) (Some zeroed) st = Some (0, Some zeroed, st).
Proof.
  intros st. split.
  - apply (get_device_info_failure_is_silent st 0).
  - apply (get_device_info_failure_is_silent st (-1)). left. lia.
Defined.

(** ** The calls of a pass, evaluated *)

(** One hub with two ports: the query of port 1 fails, port 2 is recorded. *)
Example scenario_calls :
  snd (EnumerateUSBDevices_io winsdk
         {| SetupDiGetClassDevs := Some [hub_nameless] |} initial)
  = [Call_SetupDiGetClassDevs true;
     Call_SetupDiEnumDeviceInterfaces 0 true;
     Call_InterfaceDetailSize 0; Call_malloc 0 true;
     Call_InterfaceDetail 0 true;
     Call_CreateFileA 0 true;
     Call_NodeInformation 0 true;
     Call_ConnectionInformation 0 1 false;
     Call_ConnectionInformation 0 2 true;
     Call_DeviceRegistryProperty 0 2 false;
     Call_CloseHandle 0;
     Call_free 0;
     Call_SetupDiEnumDeviceInterfaces 1 false;
     Call_SetupDiDestroyDeviceInfoList].
Proof. by vm_compute. Qed.

(** A hub that cannot be opened is neither queried nor closed. *)
Example scenario_calls_closed :
  snd (EnumerateUSBDevices_io winsdk
         {| SetupDiGetClassDevs := Some [hub_closed] |} initial)
  = [Call_SetupDiGetClassDevs true;
     Call_SetupDiEnumDeviceInterfaces 0 true;
     Call_InterfaceDetailSize 0; Call_malloc 0 true;
     Call_InterfaceDetail 0 true;
     Call_CreateFileA 0 false;
     Call_free 0;
     Call_SetupDiEnumDeviceInterfaces 1 false;
     Call_SetupDiDestroyDeviceInfoList].
Proof. by vm_compute. Qed.

(** ** The further properties at concrete passes *)

Lemma hub_loop_only_appends_witness :
  let st := hub_loop winsdk [hub_B] 0 initial in
  let st' := hub_loop winsdk [hub_closed; hub_nameless] 1 st in
  store_ok st /\
  emitted st `prefix_of` emitted st' /\
  g_deviceCount st <= g_deviceCount st'.
Proof.
  intros st st'.
  assert (Hok : store_ok st).
  { split; [vm_compute; split; discriminate | vm_compute; reflexivity]. }
  destruct (hub_loop_only_appends winsdk [hub_closed; hub_nameless] 1 st Hok)
    as (Hpre & Hle & _).
  split; [exact Hok|]. split; [exact Hpre | exact Hle].
Defined.

Lemma full_store_is_final_witness :
  let st := snd (EnumerateUSBDevices winsdk platform_D initial) in
  g_deviceCount st >= MAX_DEVICES /\
  hub_loop winsdk [hub_B; hub_nameless] 2 st = st.
Proof.
  intros st.
  assert (Hfull : g_deviceCount st >= MAX_DEVICES)
    by (vm_compute; discriminate).
  split; [exact Hfull|].
  apply (full_store_is_final winsdk [hub_B; hub_nameless] 2 st Hfull).
Defined.

Lemma stored_strings_fit_witness :
  let r := device_record winsdk "hub#n" 2 2 (device 0x0951 0x1666 x07) "" in
  Z.of_nat (String.length (deviceDesc r)) < MAX_DESC_LEN /\
  Z.of_nat (String.length (devicePath r)) < MAX_PATH_LEN.
Proof.
  intros r. apply (stored_strings_fit winsdk platform_C initial r).
  apply (list_elem_of_lookup_2 _ 2%nat). vm_compute. reflexivity.
Defined.

Lemma stored_fields_in_range_witness :
  let r := device_record winsdk "hub#n" 2 2 (device 0x0951 0x1666 x07) "" in
  1 <= portNumber r <= 255 /\
  (isHub r = 0 \/ isHub r = 1) /\
  -1 <= speed r <= 3 /\
  r <> zeroed.
Proof.
  intros r. apply (stored_fields_in_range winsdk platform_C initial r).
  apply (list_elem_of_lookup_2 _ 2%nat). vm_compute. reflexivity.
Defined.

Lemma stored_record_provenance_witness :
  let listing := [hub_B; hub_closed; hub_nameless] in
  let r := device_record winsdk "hub#n" 2 2 (device 0x0951 0x1666 x07) "" in
  exists hub path connInfo,
    listing !! Z.to_nat (hubIndex r) = Some hub /\
    InterfaceDetail hub = Some path /\
    GetPortConnectorProperties hub (portNumber r) = Some connInfo /\
    vendorId r = idVendor (DeviceDescriptor connInfo) /\
    productId r = idProduct (DeviceDescriptor connInfo) /\
    isHub r = (if int_of_UCHAR (DeviceIsHub connInfo) =? 0 then 0 else 1) /\
    speed r = map_speed winsdk (int_of_UCHAR (Speed connInfo)) /\
    devicePath r = strncpy path (MAX_PATH_LEN - 1) /\
    deviceDesc r =
      snprintf MAX_DESC_LEN
        ("Hub: "
         +:+ snd (GetDeviceProperty (DeviceDescProperty hub (portNumber r)) "")
         +:+ ", Port: " +:+ decimal (portNumber r)).
Proof.
  intros listing r.
  apply (stored_record_provenance winsdk platform_C initial listing r).
  - reflexivity.
  - simpl. lia.
  - apply (list_elem_of_lookup_2 _ 2%nat). vm_compute. reflexivity.
Defined.

Lemma every_connected_port_recorded_witness :
  exists r,
    r ∈ emitted (snd (EnumerateUSBDevices winsdk platform_C initial)) /\
    hubIndex r = 0 /\
    portNumber r = 3 /\
    vendorId r = 0xAAAA /\
    productId r = 0xBBBB.
Proof.
  apply (every_connected_port_recorded winsdk platform_C initial
           [hub_B; hub_closed; hub_nameless] 0%nat hub_B "hub#b" x04 3
           (device 0xAAAA 0xBBBB x01)).
  - reflexivity.
  - simpl. lia.
  - vm_compute. discriminate.
  - reflexivity.
  - reflexivity.
  - reflexivity.
  - reflexivity.
  - vm_compute. split; discriminate.
  - reflexivity.
  - reflexivity.
Defined.

Lemma enumerate_then_get_witness :
  let res := EnumerateUSBDevices winsdk platform_B initial in
  let r := device_record winsdk "hub#b" 0 3 (device 0xAAAA 0xBBBB x01)
             "USB Root Hub" in
  GetDeviceInfo 1 (Some zeroed) (snd res) = Some (1, Some r, snd res) /\
  GetDeviceInfo 2 (Some zeroed) (snd res) = Some (0, Some zeroed, snd res).
Proof.
  intros res r.
  destruct (enumerate_then_get winsdk platform_B initial [hub_B])
    as [Hin Hout].
  - reflexivity.
  - simpl. lia.
  - split.
    + apply (Hin 1%nat r zeroed); [reflexivity | vm_compute; reflexivity].
    + apply Hout. vm_compute. discriminate.
Defined.

Lemma stored_description_witness :
  let r := device_record winsdk "hub#b" 0 3 (device 0xAAAA 0xBBBB x01)
             "USB Root Hub" in
  (exists rest, "Hub: USB Root Hub, Port: 3" = deviceDesc r +:+ rest) /\
  ((String.length "USB Root Hub" <= 239)%nat ->
   deviceDesc r = "Hub: USB Root Hub, Port: 3").
Proof.
  intros r.
  apply (stored_description winsdk platform_B initial [hub_B] r hub_B).
  - reflexivity.
  - simpl. lia.
  - apply (list_elem_of_lookup_2 _ 1%nat). vm_compute. reflexivity.
  - reflexivity.
Defined.

Lemma stored_in_listing_order_witness :
  let ri := device_record winsdk "hub#b" 0 3 (device 0xAAAA 0xBBBB x01)
              "USB Root Hub" in
  let rj := device_record winsdk "hub#n" 2 2 (device 0x0951 0x1666 x07) "" in
  record_before ri rj /\
  (hubIndex ri, portNumber ri) <> (hubIndex rj, portNumber rj).
Proof.
  intros ri rj.
  apply (stored_in_listing_order winsdk platform_C initial
           [hub_B; hub_closed; hub_nameless] 1%nat 2%nat ri rj).
  - reflexivity.
  - simpl. lia.
  - lia.
  - vm_compute. reflexivity.
  - vm_compute. reflexivity.
Defined.

Lemma hub_while_terminates_witness :
  hub_while winsdk 3 [hub_B; hub_closed] 0 initial
  = Some (hub_loop winsdk [hub_B; hub_closed] 0 initial) /\
  hub_while winsdk 2 [hub_B; hub_closed] 0 initial = None.
Proof.
  split.
  - apply (hub_while_terminates winsdk [hub_B; hub_closed] initial 3);
      simpl; lia.
  - apply (hub_while_terminates winsdk [hub_B; hub_closed] initial 2);
      simpl; lia.
Defined.

Lemma every_port_queried_once_witness :
  queried_ports (snd (EnumerateUSBDevices_io winsdk platform_C initial))
  = [(0, 1); (0, 2); (0, 3); (0, 4); (2, 1); (2, 2)].
Proof.
  apply (every_port_queried_once winsdk platform_C initial
           [hub_B; hub_closed; hub_nameless]).
  - reflexivity.
  - simpl. lia.
Defined.

Lemma records_of_a_hub_share_its_path_witness :
  let r1 := device_record winsdk "hub#b" 0 1 (device 0x1234 0x5678 x02)
              "USB Root Hub" in
  let r2 := device_record winsdk "hub#b" 0 3 (device 0xAAAA 0xBBBB x01)
              "USB Root Hub" in
  devicePath r1 = devicePath r2 /\
  exists hub path,
    [hub_B; hub_closed; hub_nameless] !! Z.to_nat (hubIndex r1) = Some hub /\
    InterfaceDetail hub = Some path /\
    (Z.of_nat (String.length path) <= MAX_PATH_LEN - 1 ->
     devicePath r1 = path).
Proof.
  intros r1 r2.
  apply (records_of_a_hub_share_its_path winsdk platform_C initial
           [hub_B; hub_closed; hub_nameless] r1 r2).
  - reflexivity.
  - simpl. lia.
  - apply (list_elem_of_lookup_2 _ 0%nat). vm_compute. reflexivity.
  - apply (list_elem_of_lookup_2 _ 1%nat). vm_compute. reflexivity.
  - reflexivity.
Defined.

(** ** Passes that do not return *)

(** [malloc] gives NULL while the third hub is processed: the first two
    hubs are done, the pass ends at the write of line 132, and the device
    information set is not destroyed. *)
Example scenario_null_block :
  let run := EnumerateUSBDevices_run winsdk platform_C (heap_null_at 2)
               initial in
  fst run = inl NullWrite /\
  last (snd run) = Some (Call_malloc 2 false) /\
  os_run (snd run) nothing_held
  = Some {| infoSet := true; heapBlock := None; hubHandle := None |}.
Proof. by vm_compute. Qed.

(** The sizing call stores nothing for the first hub: [malloc] is reached
    with [requiredSize] never written. *)
Example scenario_unsized :
  EnumerateUSBDevices_run winsdk platform_B heap_unsized initial
  = (inl UninitialisedSize,
     [Call_SetupDiGetClassDevs true;
      Call_SetupDiEnumDeviceInterfaces 0 true;
      Call_InterfaceDetailSize 0]).
Proof. by vm_compute. Qed.

Lemma pass_releases_what_it_acquires_witness :
  os_run (snd (EnumerateUSBDevices_run winsdk platform_C heap_plentiful
                 initial)) nothing_held
  = Some nothing_held /\
  exists r,
    os_run (snd (EnumerateUSBDevices_run winsdk platform_C (heap_null_at 2)
                   initial)) nothing_held
    = Some r /\
    infoSet r = true /\ hubHandle r = None.
Proof.
  split.
  - destruct (pass_releases_what_it_acquires winsdk platform_C
                heap_plentiful initial) as (Hret & _ & _).
    apply (Hret (EnumerateUSBDevices winsdk platform_C initial)).
    vm_compute. reflexivity.
  - destruct (pass_releases_what_it_acquires winsdk platform_C
                (heap_null_at 2) initial) as (_ & Hfault & _).
    apply (Hfault NullWrite). vm_compute. reflexivity.
Defined.
